(** * bovid-19: the data pipeline of [app.py]

    A shallow embedding of the three data transformations of [app.py]
    (the rollup filter of [index], [age_by_state] and [deaths_by_county])
    and the properties the specification states about them.

    Modelling conventions.
    - A pandas [DataFrame] is a list of column labels together with the
      rows, each row carrying its index label.  A column that is not in
      the label list does not exist: subscripting it raises [KeyError].
    - Cells are typed the way [pd.read_json] infers them: a text column
      holds [Some s] or [None] (NaN), a numeric column [Some z] or [None].
    - Python exceptions are values of [exn]; a computation that may
      raise has type [py A].
    - Counts are 64-bit integers: sums of an integer column wrap around
      as int64 arithmetic does ([wrap64]), and [astype(float)] rounds a
      count to the nearest binary64 value ([float64_of_int]); a float is
      the rational it denotes.  A numeric column with a missing cell is
      float64 in pandas, and its sums are those of the model while they
      stay below 2^53 in magnitude.
    - pandas semantics are those of the 1.x line the program was written
      for: [drop(labels, 1)] drops columns, a right merge keeps the rows
      of the right frame in order, [groupby] sorts the group keys. *)

From Stdlib Require Import List String Ascii Bool Arith ZArith QArith Lia Lqa.
From Stdlib Require Import Permutation Sorted.
Import ListNotations.

Local Close Scope Q_scope.
Local Open Scope string_scope.
Local Open Scope list_scope.

(** ** Exceptions *)

Inductive exn : Type :=
| KeyError (label : string)
| TypeError
| ValueError
| AttributeError (attr : string).

Definition py (A : Type) : Type := (exn + A)%type.

Definition ret {A} (a : A) : py A := inr a.
Definition raise {A} (e : exn) : py A := inl e.
Definition bind {A B} (c : py A) (k : A -> py B) : py B :=
  match c with
  | inl e => inl e
  | inr a => k a
  end.

Notation "x <- c ;; k" := (bind c (fun x => k))
  (at level 61, c at next level, right associativity).
Notation "' p <- c ;; k" := (bind c (fun x => let p := x in k))
  (at level 61, p pattern, c at next level, right associativity).

(** ** Strings *)

(** [pat in s], which is what [Series.str.contains(pat)] computes for a
    pattern without regular-expression metacharacters. *)
Fixpoint contains (pat s : string) : bool :=
  prefix pat s ||
  match s with
  | EmptyString => false
  | String _ s' => contains pat s'
  end.

(** [str.lower] on the ASCII letters. *)
Definition lower_ascii (c : ascii) : ascii :=
  let n := nat_of_ascii c in
  if (65 <=? n)%nat && (n <=? 90)%nat then ascii_of_nat (n + 32) else c.

Fixpoint lower (s : string) : string :=
  match s with
  | EmptyString => EmptyString
  | String c s' => String (lower_ascii c) (lower s')
  end.

(** [x.split(',')[0]]: the text before the first comma. *)
Fixpoint split_comma_0 (x : string) : string :=
  match x with
  | EmptyString => EmptyString
  | String c x' => if Ascii.eqb c "," then EmptyString else String c (split_comma_0 x')
  end.

Definition mem (c : string) (l : list string) : bool := existsb (String.eqb c) l.

(** ** Data frames *)

Record DataFrame (R : Type) : Type := mkDataFrame {
  columns : list string;
  rows : list (nat * R)
}.
Arguments mkDataFrame {R} _ _.
Arguments columns {R} _.
Arguments rows {R} _.

Definition index_of {R} (df : DataFrame R) : list nat := map fst (rows df).
Definition records {R} (df : DataFrame R) : list R := map snd (rows df).

(** What [pd.read_json] builds from a list of records: a [RangeIndex]. *)
Definition read_json {R} (cols : list string) (recs : list R) : DataFrame R :=
  mkDataFrame cols (combine (seq 0 (List.length recs)) recs).

(** [df[c]]: the cells of column [c], read through the typed accessor. *)
Definition getitem {R A} (df : DataFrame R) (c : string) (field : R -> A)
  : py (list A) :=
  if mem c (columns df) then ret (map field (records df))
  else raise (KeyError c).

(** [df.c]: attribute access to a column. *)
Definition getattr {R A} (df : DataFrame R) (c : string) (field : R -> A)
  : py (list A) :=
  if mem c (columns df) then ret (map field (records df))
  else raise (AttributeError c).

Fixpoint select {A} (mask : list bool) (l : list A) : list A :=
  match mask, l with
  | b :: mask', a :: l' => if b then a :: select mask' l' else select mask' l'
  | _, _ => []
  end.

(** [df[mask]] for a mask without missing values. *)
Definition getitem_bool {R} (df : DataFrame R) (mask : list bool) : DataFrame R :=
  mkDataFrame (columns df) (select mask (rows df)).

Definition is_none {A} (o : option A) : bool :=
  match o with None => true | Some _ => false end.

(** [df[mask]] for a mask that may hold NaN: pandas refuses such a mask. *)
Definition getitem_mask {R} (df : DataFrame R) (mask : list (option bool))
  : py (DataFrame R) :=
  if existsb is_none mask then raise ValueError
  else ret (getitem_bool df (map (fun o => match o with Some b => b | None => false end) mask)).

(** [col.str.contains(pat)].  The [.str] accessor exists on text columns
    only: a column with rows and no text in them has a numeric dtype. *)
Definition str_contains (pat : string) (col : list (option string))
  : py (list (option bool)) :=
  match col with
  | _ :: _ =>
      if forallb is_none col then raise (AttributeError "str")
      else ret (map (option_map (contains pat)) col)
  | [] => ret []
  end.

(** [df.drop(labels)]: every row whose index label is listed goes. *)
Definition drop {R} (labels : list nat) (df : DataFrame R) : DataFrame R :=
  mkDataFrame (columns df)
    (filter (fun ir => negb (existsb (Nat.eqb (fst ir)) labels)) (rows df)).

(** [col == s] *)
Definition cell_eqb (s : string) (c : option string) : bool :=
  match c with
  | Some t => String.eqb t s
  | None => false
  end.

(** ** The state dataset *)

Module StateRecord.
Record t : Type := mk {
  state : option string;
  sex : option string;
  age_group : option string;
  covid_19_deaths : option Z;
  total_deaths : option Z;
  pneumonia_deaths : option Z;
  pneumonia_and_covid_19_deaths : option Z;
  influenza_deaths : option Z;
  pneumonia_influenza_or_covid : option Z
}.

(** The numeric cell of a record under a column label. *)
Definition figure (c : string) (r : t) : option Z :=
  if c =? "covid_19_deaths" then covid_19_deaths r
  else if c =? "total_deaths" then total_deaths r
  else if c =? "pneumonia_deaths" then pneumonia_deaths r
  else if c =? "pneumonia_and_covid_19_deaths" then pneumonia_and_covid_19_deaths r
  else if c =? "influenza_deaths" then influenza_deaths r
  else if c =? "pneumonia_influenza_or_covid" then pneumonia_influenza_or_covid r
  else None.
End StateRecord.

Definition STATE_FIGURES : list string :=
  ["covid_19_deaths"; "total_deaths"; "pneumonia_deaths";
   "pneumonia_and_covid_19_deaths"; "influenza_deaths";
   "pneumonia_influenza_or_covid"].

Definition AGE_GROUPS : list string :=
  ["Under 1 year"; "1-4 years"; "5-14 years"; "15-24 years";
   "25-34 years"; "35-44 years"; "45-54 years"; "55-64 years";
   "65-74 years"; "75-84 years"; "85 years and over"].

(** ** RegionFilter: lines 149-150 of [index]
<<
    offset = state_data[state_data['state'].str.contains("Total")].index
    state_data.drop(offset, inplace=True)
>> *)
Definition drop_totals (state_data : DataFrame StateRecord.t)
  : py (DataFrame StateRecord.t) :=
  col <- getitem state_data "state" StateRecord.state ;;
  mask <- str_contains "Total" col ;;
  totals <- getitem_mask state_data mask ;;
  let offset := index_of totals in
  ret (drop offset state_data).

(** ** Generic list helpers *)

(** [Series.unique()]: the distinct values in order of first appearance. *)
Fixpoint unique {A} (eqb : A -> A -> bool) (l : list A) : list A :=
  match l with
  | [] => []
  | a :: l' => a :: filter (fun b => negb (eqb b a)) (unique eqb l')
  end.

Fixpoint insert {A} (leb : A -> A -> bool) (a : A) (l : list A) : list A :=
  match l with
  | [] => [a]
  | b :: l' => if leb a b then a :: l else b :: insert leb a l'
  end.

(** Ascending sort. *)
Definition sort {A} (leb : A -> A -> bool) (l : list A) : list A :=
  fold_right (insert leb) [] l.

Definition cell_eq (a b : option string) : bool :=
  match a, b with
  | Some s, Some t => String.eqb s t
  | None, None => true
  | _, _ => false
  end.

(** The text cells of a column; NaN cells are left out. *)
Definition texts (col : list (option string)) : list string :=
  flat_map (fun c => match c with Some s => [s] | None => [] end) col.

(** [Series.isin(values)] *)
Definition isin (values : list string) (c : option string) : bool :=
  match c with
  | Some s => mem s values
  | None => false
  end.

(** int64 arithmetic: the two's-complement value of an integer. *)
Definition wrap64 (z : Z) : Z :=
  ((z + 9223372036854775808) mod 18446744073709551616 - 9223372036854775808)%Z.

(** [sum()] of a numeric column: NaN cells are skipped, and the additions
    are those of int64, which wrap around. *)
Fixpoint nansum (col : list (option Z)) : Z :=
  match col with
  | [] => 0
  | Some z :: col' => wrap64 (z + nansum col')
  | None :: col' => nansum col'
  end.

(** ** AgeCohortAggregator: [age_by_state] *)

Record StatePlot : Type := mkStatePlot {
  x_range : list (option string);
  plot_title : string;
  plot_source : list (string * list Z)
}.

(** [df.groupby('age_group')[cols].sum()]: one row per distinct age group,
    the groups in ascending order of their label, NaN labels left out. *)
Definition groupby_age_group_sum (df : DataFrame StateRecord.t) (cols : list string)
  : py (list (string * list Z)) :=
  keys <- getitem df "age_group" StateRecord.age_group ;;
  match find (fun c => negb (mem c (columns df))) cols with
  | Some c => raise (KeyError c)
  | None =>
      let groups := sort String.leb (unique String.eqb (texts keys)) in
      ret (map (fun k =>
                  let members :=
                    filter (fun r => cell_eqb k (StateRecord.age_group r)) (records df) in
                  (k, map (fun c => nansum (map (StateRecord.figure c) members)) cols))
               groups)
  end.

(** The chart calls ([figure], [vbar]) only decorate the plot; what they are
    given is recorded in [StatePlot]. *)
Definition age_by_state (data : DataFrame StateRecord.t) (state : string)
  : py (StatePlot * list (string * list Z)) :=
  col <- getitem data "state" StateRecord.state ;;
  let df_state := getitem_bool data (map (cell_eqb state) col) in
  ages <- getitem df_state "age_group" StateRecord.age_group ;;
  let df_state := getitem_bool df_state (map (isin AGE_GROUPS) ages) in
  ages <- getattr df_state "age_group" StateRecord.age_group ;;
  let cohorts := unique cell_eq ages in
  df_age <- groupby_age_group_sum df_state STATE_FIGURES ;;
  let plot := mkStatePlot cohorts (String.append "Deaths x Age - " state) df_age in
  ret (plot, df_age).

(** ** The county dataset and the geometry reference *)

Module CountyRecord.
Record t : Type := mk {
  state_name : option string;
  county_name : option string;
  covid_death : option Z
}.
End CountyRecord.

Module Geometry.
(** One value of [bokeh.sampledata.us_counties.data]. *)
Record t : Type := mk {
  name : string;
  detailed_name : string;
  state : string;
  lats : list Q;
  lons : list Q
}.

Definition keys : list string := ["name"; "detailed name"; "state"; "lats"; "lons"].
End Geometry.

(** A row of [df_merged]: the mortality record it was matched with, if any,
    the geometry entry and its [county_key]. *)
Module Merged.
Record t : Type := mk {
  left : option CountyRecord.t;
  right : Geometry.t;
  county_key : string
}.

(** The [covid_death] cell: NaN where the row has no mortality record. *)
Definition covid_death (m : t) : option Z :=
  match left m with
  | Some r => CountyRecord.covid_death r
  | None => None
  end.
End Merged.

(** [pd.DataFrame(values)] for a list of dicts: no rows, no columns. *)
Definition DataFrame_of_dicts (values : list Geometry.t) : DataFrame Geometry.t :=
  match values with
  | [] => mkDataFrame [] []
  | _ :: _ => read_json Geometry.keys values
  end.

(** [df.drop(labels, 1)]: the frame without the listed columns. *)
Definition drop_columns {R} (labels : list string) (df : DataFrame R)
  : py (DataFrame R) :=
  match find (fun c => negb (mem c (columns df))) labels with
  | Some c => raise (KeyError c)
  | None =>
      ret (mkDataFrame (filter (fun c => negb (mem c labels)) (columns df)) (rows df))
  end.

(** The rows of the mortality frame a geometry key is joined with. *)
Definition matches (key : string) (left : list CountyRecord.t) : list CountyRecord.t :=
  filter (fun r => cell_eqb key (CountyRecord.county_name r)) left.

(** Column labels of a merge: a label on both sides gets a suffix. *)
Definition merged_columns (lcols rcols : list string) : list string :=
  List.app (map (fun c => if mem c rcols then String.append c "_x" else c) lcols)
           (map (fun c => if mem c lcols then String.append c "_y" else c) rcols).

Definition is_text (c : option string) : bool :=
  match c with Some _ => true | None => false end.

(** The dtype of a text column as [read_json] infers it: [object] when a
    cell holds text, [float64] when every cell is missing. *)
Definition object_dtype (col : list (option string)) : bool :=
  match col with
  | [] => true
  | _ :: _ => existsb is_text col
  end.

Definition nonempty {A} (l : list A) : bool :=
  match l with [] => false | _ :: _ => true end.

(** [pd.merge(left, right, left_on='county_name', right_on='county_key',
    how='right')]: every row of [right], in order, once for each row of
    [left] with its key and once, with an empty left side, if there is none.
    [left_on_object] is the dtype of the left key column; the right keys
    are text.  pandas refuses ([ValueError]) to merge float64 keys with
    text keys, and skips that check when exactly one side has no rows. *)
Definition merge_right (left : DataFrame CountyRecord.t) (left_on_object : bool)
    (right : DataFrame (Geometry.t * string)) : py (DataFrame Merged.t) :=
  if negb (mem "county_name" (columns left)) then raise (KeyError "county_name")
  else if negb (mem "county_key" (columns right)) then raise (KeyError "county_key")
  else if Bool.eqb (nonempty (rows left)) (nonempty (rows right))
          && negb left_on_object
       then raise ValueError
  else
    ret (read_json (merged_columns (columns left) (columns right))
           (flat_map (fun g =>
                        match matches (snd g) (records left) with
                        | [] => [Merged.mk None (fst g) (snd g)]
                        | ms => map (fun r => Merged.mk (Some r) (fst g) (snd g)) ms
                        end)
                     (records right))).

(** [astype(float)] on an int64 cell: the nearest binary64 value, ties to
    the even significand.  Integers up to 2^53 in magnitude are kept;
    beyond, the 53 leading bits are kept and the rest rounded. *)
Definition float64_of_int (z : Z) : Z :=
  let a := Z.abs z in
  if (a <=? 9007199254740992)%Z then z
  else
    let e := (Z.log2 a - 52)%Z in
    let q := Z.shiftr a e in
    let r := (a - Z.shiftl q e)%Z in
    let half := Z.shiftl 1 (e - 1) in
    let q' := if (half <? r)%Z || ((r =? half)%Z && Z.odd q) then (q + 1)%Z else q in
    (Z.sgn z * Z.shiftl q' e)%Z.

(** [fillna(0)] on a numeric cell. *)
Definition fillna (z : Z) (c : option Z) : Z :=
  match c with
  | Some v => v
  | None => z
  end.

(** [numpy.median]: the middle of the sorted values, the mean of the two
    middle ones for an even count, NaN ([None]) for no values at all. *)
Definition median (l : list Q) : option Q :=
  let s := sort Qle_bool l in
  let n := List.length s in
  if (n =? 0)%nat then None
  else if Nat.odd n then Some (nth (n / 2) s 0%Q)
  else Some ((nth (n / 2 - 1) s 0%Q + nth (n / 2) s 0%Q) / 2)%Q.

(** Python's [max]: the first largest item; [ValueError] on an empty list. *)
Definition pymax (l : list Q) : py Q :=
  match l with
  | [] => raise ValueError
  | a :: l' => ret (fold_left (fun m b => if Qle_bool b m then m else b) l' a)
  end.

Record LinearColorMapper : Type := mkLinearColorMapper {
  low : option Q;
  high : Q
}.

Module Source.
(** The [dict] handed to [patches]. *)
Record t : Type := mk {
  x : list (list Q);
  y : list (list Q);
  name : list string;
  rate : list Q
}.
End Source.

Record Figure : Type := mkFigure {
  title : string;
  source : Source.t;
  color_mapper : LinearColorMapper
}.

(** What [deaths_by_county] returns: the plot, or the pair [(None, None)]. *)
Inductive returned : Type :=
| Plot (p : Figure)
| NoneNone.

Section CountyJoinEngine.

(** [state_mapping]: region code to display name, in insertion order.
    It is imported from the package and is not part of [app.py]. *)
Variable state_mapping : list (string * string).

(** [county_data] at module level: bokeh's county table. *)
Variable county_data : list ((nat * nat) * Geometry.t).

Definition filter_state (mapped : list (string * string)) : option (string * string) :=
  match mapped with
  | (k, v) :: _ => Some (k, v)
  | [] => None
  end.

(** [a, b = value]: unpacking [None] raises [TypeError]. *)
Definition unpack {A} (value : option A) : py A :=
  match value with
  | Some p => ret p
  | None => raise TypeError
  end.

(** The body of the [try] block, statement by statement.
    - [mapped]: the dict comprehension over [state_mapping.items()];
    - [state_code, state_name = filter_state(mapped)];
    - [df_state = data[data['state_name'] == state_code]];
    - [df_state.drop([...], 1)], whose result is thrown away but which
      raises when one of the three columns is missing;
    - [counties], [county_df] and its new column [county_key];
    - [df_merged = pd.merge(..., how='right')], where the key column
      [county_name] of [df_state] has the dtype it has in [data] (a
      boolean selection keeps it);
    - [df_merged.fillna(0, inplace=True)] and [astype(float)] on
      [covid_death], the one column with missing cells that is read
      afterwards;
    - the four [values.tolist()] reads, [median], [max] and the plot. *)
Definition deaths_by_county_try (data : DataFrame CountyRecord.t) (state : string)
  : py Figure :=
  let mapped := filter (fun cn => String.eqb (snd cn) state) state_mapping in
  '(state_code, state_name) <- unpack (filter_state mapped) ;;
  col <- getitem data "state_name" CountyRecord.state_name ;;
  let df_state := getitem_bool data (map (cell_eqb state_code) col) in
  _ <- drop_columns ["data_as_of"; "start_week"; "end_week"] df_state ;;
  let counties :=
    filter (fun kv => String.eqb (Geometry.state (snd kv)) (lower state_code))
           county_data in
  let county_df := DataFrame_of_dicts (map snd counties) in
  detailed <- getitem county_df "detailed name" Geometry.detailed_name ;;
  let county_df :=
    mkDataFrame (List.app (columns county_df) ["county_key"])
      (combine (index_of county_df)
               (combine (records county_df) (map split_comma_0 detailed))) in
  let key_dtype := object_dtype (map CountyRecord.county_name (records data)) in
  df_merged <- merge_right df_state key_dtype county_df ;;
  covid <- getattr df_merged "covid_death" Merged.covid_death ;;
  let covid := map inject_Z (map float64_of_int (map (fillna 0) covid)) in
  county_xs <- getattr df_merged "lons" (fun m => Geometry.lons (Merged.right m)) ;;
  county_ys <- getattr df_merged "lats" (fun m => Geometry.lats (Merged.right m)) ;;
  county_names <- getattr df_merged "name" (fun m => Geometry.name (Merged.right m)) ;;
  let county_rates := covid in
  let lo := median county_rates in
  hi <- pymax county_rates ;;
  let color_mapper := mkLinearColorMapper lo hi in
  let data := Source.mk county_xs county_ys county_names county_rates in
  ret (mkFigure (String.append state_name " - Covid Deaths") data color_mapper).

(** [try: ... return p] / [except Exception: return None, None]. *)
Definition deaths_by_county (data : DataFrame CountyRecord.t) (state : string)
  : returned :=
  match deaths_by_county_try data state with
  | inr p => Plot p
  | inl _ => NoneNone
  end.

(** ** The request handler [index] *)

Inductive model : Type :=
| StateModel (p : StatePlot)
| CountyModel (r : returned).

(** [bokeh.embed.components], a collaborator outside [app.py]. *)
Variable components : model -> py (string * string).

Record TemplateContext : Type := mkTemplateContext {
  state_script : string;
  state_div : string;
  county_script : string;
  county_div : string;
  current_state : string;
  states : list (option string)
}.

(** [index], given the query argument and the two fetched datasets. *)
Definition index (arg : option string) (state_data : DataFrame StateRecord.t)
    (county_data' : DataFrame CountyRecord.t) : py TemplateContext :=
  let current_state :=
    match arg with
    | None => "New York"
    | Some s => s
    end in
  state_data <- drop_totals state_data ;;
  '(state_plot, df) <- age_by_state state_data current_state ;;
  let county_plot := deaths_by_county county_data' current_state in
  '(state_script, sate_div) <- components (StateModel state_plot) ;;
  '(county_script, county_div) <- components (CountyModel county_plot) ;;
  states <- getitem state_data "state" StateRecord.state ;;
  let states := filter (fun x => negb (cell_eq x (Some "New York City"))) states in
  ret (mkTemplateContext state_script sate_div county_script county_div
         current_state states).

End CountyJoinEngine.

(** * Vocabulary of the specification *)

(** [pat] occurs in [s]. *)
Definition Substring (pat s : string) : Prop :=
  exists pre post, s = String.append pre (String.append pat post).

(** [l1] is [l2] with some items left out, the others in their order. *)
Inductive subseq {A : Type} : list A -> list A -> Prop :=
| subseq_nil : subseq [] []
| subseq_skip : forall a l1 l2, subseq l1 l2 -> subseq l1 (a :: l2)
| subseq_keep : forall a l1 l2, subseq l1 l2 -> subseq (a :: l1) (a :: l2).

(** A rollup record: its region cell holds text with "Total" in it. *)
Definition is_total (r : StateRecord.t) : bool :=
  match StateRecord.state r with
  | Some s => contains "Total" s
  | None => false
  end.

(** The region list of the template: the cells other than "New York City". *)
Definition selectable (l : list (option string)) : list (option string) :=
  filter (fun x => negb (cell_eq x (Some "New York City"))) l.

(** The code a display name resolves to: the first entry of the mapping
    with that name. *)
Definition resolve (state_mapping : list (string * string)) (state : string)
  : option (string * string) :=
  filter_state (filter (fun cn => String.eqb (snd cn) state) state_mapping).

(** The geometry entries of a region code, in table order. *)
Definition region_geometry (county_data : list ((nat * nat) * Geometry.t))
    (code : string) : list Geometry.t :=
  map snd (filter (fun kv => String.eqb (Geometry.state (snd kv)) (lower code))
                  county_data).

(** The mortality records of a region code, in row order. *)
Definition region_records (data : DataFrame CountyRecord.t) (code : string)
  : list CountyRecord.t :=
  filter (fun r => cell_eqb code (CountyRecord.state_name r)) (records data).

(** The canonical county name of a geometry entry. *)
Definition county_key (g : Geometry.t) : string :=
  split_comma_0 (Geometry.detailed_name g).

(** The rows a geometry entry contributes to the join. *)
Definition joined_for (recs : list CountyRecord.t) (g : Geometry.t) : list Merged.t :=
  match matches (county_key g) recs with
  | [] => [Merged.mk None g (county_key g)]
  | ms => map (fun r => Merged.mk (Some r) g (county_key g)) ms
  end.

Definition joined (recs : list CountyRecord.t) (geos : list Geometry.t)
  : list Merged.t :=
  flat_map (joined_for recs) geos.

(** The rate of a joined row: its count, 0 where there is none, as a float. *)
Definition rate_of (m : Merged.t) : Q :=
  inject_Z (float64_of_int (fillna 0 (Merged.covid_death m))).

(** Text of ASCII characters only, on which [lower] is Python's
    [str.lower]. *)
Definition is_ascii (s : string) : Prop :=
  Forall (fun c => (nat_of_ascii c < 128)%nat) (list_ascii_of_string s).

(** The join keys can be merged: the region has no mortality record, or
    the [county_name] column of the dataset holds text somewhere. *)
Definition keys_mergeable (data : DataFrame CountyRecord.t) (code : string) : Prop :=
  region_records data code = [] \/
  exists r, In r (records data) /\ CountyRecord.county_name r <> None.

(** The columns [deaths_by_county] reads from the mortality dataset. *)
Definition county_required : list string :=
  ["state_name"; "data_as_of"; "start_week"; "end_week"; "county_name"; "covid_death"].

(** The plot of a region code over the joined rows. *)
Definition figure_of (state : string) (rws : list Merged.t) (hi : Q) : Figure :=
  mkFigure (String.append state " - Covid Deaths")
    (Source.mk (map (fun m => Geometry.lons (Merged.right m)) rws)
               (map (fun m => Geometry.lats (Merged.right m)) rws)
               (map (fun m => Geometry.name (Merged.right m)) rws)
               (map rate_of rws))
    (mkLinearColorMapper (median (map rate_of rws)) hi).

(** The records [age_by_state] aggregates: those of the region whose age
    group is one of [AGE_GROUPS], in row order. *)
Definition cohort_records (data : DataFrame StateRecord.t) (state : string)
  : list StateRecord.t :=
  filter (fun r => isin AGE_GROUPS (StateRecord.age_group r))
    (filter (fun r => cell_eqb state (StateRecord.state r)) (records data)).

(** The six sums of one cohort. *)
Definition cohort_sums (recs : list StateRecord.t) (k : string) : list Z :=
  map (fun c => nansum (map (StateRecord.figure c)
                          (filter (fun r => cell_eqb k (StateRecord.age_group r)) recs)))
      STATE_FIGURES.

(** The CohortTable of a list of records. *)
Definition cohort_table (recs : list StateRecord.t) : list (string * list Z) :=
  map (fun k => (k, cohort_sums recs k))
      (sort String.leb (unique String.eqb (texts (map StateRecord.age_group recs)))).



(** [hi] is the maximum of [l]. *)
Definition is_maximum (hi : Q) (l : list Q) : Prop :=
  In hi l /\ forall v, In v l -> (v <= hi)%Q.

(** The order [sort Qle_bool] sorts by. *)
Definition Qleb_true (a b : Q) : Prop := Qle_bool a b = true.

(** The labels of the geometry table [deaths_by_county] reads from the
    merged frame; a mortality column of the same label hides them. *)
Definition county_reserved : list string := ["lons"; "lats"; "name"].

(** The output of the join, position by position: coordinates, name, rate. *)
Definition entries (s : Source.t) : list (list Q * list Q * string * Q) :=
  combine (combine (combine (Source.x s) (Source.y s)) (Source.name s)) (Source.rate s).

(** The number of rows of the join. *)
Definition join_size (recs : list CountyRecord.t) (geos : list Geometry.t) : nat :=
  list_sum (map (fun g => Nat.max 1 (List.length (matches (county_key g) recs))) geos).

(** Why [deaths_by_county] has no plot to return. *)
Inductive failure_cause (state_mapping : list (string * string))
    (county_data : list ((nat * nat) * Geometry.t))
    (data : DataFrame CountyRecord.t) (state : string) : Prop :=
| region_not_found :
    resolve state_mapping state = None ->
    failure_cause state_mapping county_data data state
| missing_column : forall c,
    In c county_required -> ~ In c (columns data) ->
    failure_cause state_mapping county_data data state
| hidden_column : forall c,
    In c county_reserved -> In c (columns data) ->
    failure_cause state_mapping county_data data state
| empty_rate_series : forall code,
    resolve state_mapping state = Some (code, state) ->
    region_geometry county_data code = [] ->
    failure_cause state_mapping county_data data state
| numeric_join_key : forall code,
    resolve state_mapping state = Some (code, state) ->
    region_records data code <> [] ->
    (forall r, In r (records data) -> CountyRecord.county_name r = None) ->
    failure_cause state_mapping county_data data state.

(** A geometry entry no mortality record of the region is joined with. *)
Definition unmatched (recs : list CountyRecord.t) (g : Geometry.t) : Prop :=
  forall r, In r recs -> CountyRecord.county_name r <> Some (county_key g).

(** The output entry of a geometry entry with a given rate. *)
Definition entry_of (g : Geometry.t) (rate : Q) : list Q * list Q * string * Q :=
  (Geometry.lons g, Geometry.lats g, Geometry.name g, rate).

(** The sum of a numeric column in the integers, a missing cell counting
    as 0, and the sum of the magnitudes of its cells. *)
Fixpoint exact_sum (col : list (option Z)) : Z :=
  match col with
  | [] => 0
  | c :: col' => (fillna 0 c + exact_sum col')%Z
  end.

Fixpoint abs_sum (col : list (option Z)) : Z :=
  match col with
  | [] => 0
  | c :: col' => (Z.abs (fillna 0 c) + abs_sum col')%Z
  end.

(** The columns [age_by_state] reads, in the order it reads them. *)
Definition age_required : list string := "state" :: "age_group" :: STATE_FIGURES.

(** The six sums a table holds for a cohort: zeros for a cohort without a row. *)
Definition totals (df_age : list (string * list Z)) (k : string) : list Z :=
  match find (fun row => String.eqb (fst row) k) df_age with
  | Some row => snd row
  | None => map (fun _ => 0%Z) STATE_FIGURES
  end.

(** Sums added figure by figure. *)
Fixpoint add_each (a b : list Z) : list Z :=
  match a, b with
  | x :: a', y :: b' => (x + y)%Z :: add_each a' b'
  | _, _ => []
  end.

(** The records of a region in one cohort. *)
Definition in_cohort (state k : string) (r : StateRecord.t) : bool :=
  cell_eqb state (StateRecord.state r) && cell_eqb k (StateRecord.age_group r).

(** * Sample data *)

Module Sample.

Definition state_mapping : list (string * string) :=
  [("NY", "New York"); ("CA", "California"); ("DC", "District of Columbia")].

Definition albany : Geometry.t :=
  Geometry.mk "Albany" "Albany County, New York" "ny"
    [424 # 10; 428 # 10; 426 # 10]%Q [-(74 # 1); -(73 # 1); -(74 # 1)]%Q.
Definition bronx : Geometry.t :=
  Geometry.mk "Bronx" "Bronx County, New York" "ny"
    [40 # 1; 41 # 1]%Q [-(73 # 1); -(74 # 1)]%Q.
Definition kings : Geometry.t :=
  Geometry.mk "Kings" "Kings County, New York" "ny"
    [40 # 1; 40 # 1]%Q [-(74 # 1); -(73 # 1)]%Q.
Definition alameda : Geometry.t :=
  Geometry.mk "Alameda" "Alameda County, California" "ca"
    [37 # 1; 38 # 1]%Q [-(122 # 1); -(121 # 1)]%Q.

Definition county_data : list ((nat * nat) * Geometry.t) :=
  [((6, 1), alameda); ((36, 1), albany); ((36, 5), bronx); ((36, 47), kings)].

Definition components (m : model) : py (string * string) :=
  ret ("<script></script>", "<div></div>").

(** A [components] that, like bokeh's, refuses what is not a plot. *)
Definition strict_components (m : model) : py (string * string) :=
  match m with
  | CountyModel NoneNone => raise ValueError
  | _ => ret ("<script></script>", "<div></div>")
  end.

Definition state_columns : list string :=
  ["data_as_of"; "start_week"; "end_week"; "state"; "sex"; "age_group";
   "covid_19_deaths"; "total_deaths"; "pneumonia_deaths";
   "pneumonia_and_covid_19_deaths"; "influenza_deaths";
   "pneumonia_influenza_or_covid"].

Definition state_row (state age : string) (covid : Z) : StateRecord.t :=
  StateRecord.mk (Some state) (Some "All") (Some age)
    (Some covid) (Some (covid + 100)%Z) (Some 3%Z) (Some 1%Z) None (Some (covid + 2)%Z).

(** The two cohort rows of the scenario, in that order. *)
Definition new_york : DataFrame StateRecord.t :=
  read_json state_columns
    [state_row "New York" "Under 1 year" 2; state_row "New York" "25-34 years" 10].


Definition state_data : DataFrame StateRecord.t :=
  read_json state_columns
    [state_row "United States Total" "All ages" 500;
     state_row "New York" "Under 1 year" 2;
     state_row "New York City" "25-34 years" 7;
     state_row "District of Columbia" "25-34 years" 4;
     state_row "New York" "25-34 years" 10;
     state_row "New York" "Under 1 year" 1].

(** [state_data] split in two: its first three records and the rest. *)
Definition state_head : DataFrame StateRecord.t :=
  read_json state_columns
    [state_row "United States Total" "All ages" 500;
     state_row "New York" "Under 1 year" 2;
     state_row "New York City" "25-34 years" 7].

Definition state_tail : DataFrame StateRecord.t :=
  read_json state_columns
    [state_row "District of Columbia" "25-34 years" 4;
     state_row "New York" "25-34 years" 10;
     state_row "New York" "Under 1 year" 1].

(** A state dataset whose records carry no region field. *)
Definition no_state_column : DataFrame StateRecord.t :=
  read_json ["sex"; "age_group"; "covid_19_deaths"]
    [StateRecord.mk None (Some "All") (Some "Under 1 year")
       (Some 2%Z) None None None None None].

Definition county_columns : list string :=
  ["data_as_of"; "start_week"; "end_week"; "state_name"; "county_name";
   "fips_code"; "covid_death"; "total_death"].

Definition county_row (code county : string) (deaths : Z) : CountyRecord.t :=
  CountyRecord.mk (Some code) (Some county) (Some deaths).

(** One mortality record for New York, for the first of its counties. *)
Definition mortality : DataFrame CountyRecord.t :=
  read_json county_columns
    [county_row "CA" "Alameda County" 7; county_row "NY" "Albany County" 5].

(** [mortality] without the record of the other region, and with its two
    records the other way round. *)
Definition mortality_ny : DataFrame CountyRecord.t :=
  read_json county_columns [county_row "NY" "Albany County" 5].

Definition mortality_swapped : DataFrame CountyRecord.t :=
  read_json county_columns
    [county_row "NY" "Albany County" 5; county_row "CA" "Alameda County" 7].

(** A mortality dataset without a record for New York. *)
Definition mortality_ca : DataFrame CountyRecord.t :=
  read_json county_columns [county_row "CA" "Alameda County" 7].

(** A mortality dataset whose records name no county: its [county_name]
    column is float64. *)
Definition mortality_no_names : DataFrame CountyRecord.t :=
  read_json county_columns
    [CountyRecord.mk (Some "NY") None (Some 5%Z);
     CountyRecord.mk (Some "CA") None (Some 7%Z)].

(** Two mortality records for one county. *)
Definition mortality_twice : DataFrame CountyRecord.t :=
  read_json county_columns
    [county_row "NY" "Albany County" 5; county_row "NY" "Albany County" 6].

Definition mortality_no_count : DataFrame CountyRecord.t :=
  read_json ["data_as_of"; "start_week"; "end_week"; "state_name"; "county_name"]
    [CountyRecord.mk (Some "NY") (Some "Albany County") None].

End Sample.

(** * Properties *)

(** ** The exception monad *)

Lemma bind_inr {A B} (c : py A) (k : A -> py B) (b : B) :
  bind c k = inr b -> exists a, c = inr a /\ k a = inr b.
Proof.
  destruct c as [e | a]; simpl; intros H; [discriminate | eauto].
Qed.

Lemma bind_inl {A B} (c : py A) (k : A -> py B) (e : exn) :
  bind c k = inl e -> c = inl e \/ exists a, c = inr a /\ k a = inl e.
Proof.
  destruct c as [e' | a]; simpl; intros H; [left; congruence | right; eauto].
Qed.

Ltac bind_inv H :=
  let a := fresh "a" in
  let Ha := fresh "H" a in
  apply bind_inr in H; destruct H as (a & Ha & H).

(** ** Strings *)

Lemma prefix_spec (p s : string) :
  prefix p s = true <-> exists post, s = String.append p post.
Proof.
  revert s; induction p as [| c p IH]; intros s.
  - destruct s; simpl; split; eauto.
  - destruct s as [| d s]; simpl.
    + split; [discriminate | intros (post & H); discriminate].
    + destruct (ascii_dec c d) as [-> | Hcd].
      * rewrite IH. split; intros (post & H); exists post; congruence.
      * split; [discriminate | intros (post & H); congruence].
Qed.

Lemma contains_nil (pat : string) : contains pat EmptyString = prefix pat EmptyString.
Proof. unfold contains. apply orb_false_r. Qed.

Lemma contains_cons (pat : string) (c : ascii) (s : string) :
  contains pat (String c s) = prefix pat (String c s) || contains pat s.
Proof. reflexivity. Qed.

Lemma contains_spec (pat s : string) :
  contains pat s = true <-> Substring pat s.
Proof.
  unfold Substring. induction s as [| c s IH].
  - rewrite contains_nil, prefix_spec. split.
    + intros (post & H). exists EmptyString, post. exact H.
    + intros (pre & post & H). destruct pre; simpl in H; [eauto | discriminate].
  - rewrite contains_cons, orb_true_iff, prefix_spec, IH. split.
    + intros [(post & H) | (pre & post & H)].
      * exists EmptyString, post. exact H.
      * exists (String c pre), post. simpl. congruence.
    + intros (pre & post & H). destruct pre as [| d pre]; simpl in H.
      * left. eauto.
      * right. exists pre, post. congruence.
Qed.

Lemma mem_In (c : string) (l : list string) : mem c l = true <-> In c l.
Proof.
  unfold mem. rewrite existsb_exists. split.
  - intros (x & Hx & E). apply String.eqb_eq in E. congruence.
  - intros H. exists c. split; [exact H | apply String.eqb_refl].
Qed.

(** ** Masks, selections and sub-sequences *)

Lemma select_map {A} (f : A -> bool) (l : list A) :
  select (map f l) l = filter f l.
Proof.
  induction l as [| a l IH]; simpl; [reflexivity |].
  rewrite IH. reflexivity.
Qed.

Lemma select_map_snd {A B} (f : B -> bool) (l : list (A * B)) :
  select (map f (map snd l)) l = filter (fun ir => f (snd ir)) l.
Proof.
  rewrite map_map. apply (select_map (fun ir => f (snd ir))).
Qed.

Lemma filter_subseq {A} (f : A -> bool) (l : list A) : subseq (filter f l) l.
Proof.
  induction l as [| a l IH]; simpl; [constructor |].
  destruct (f a); constructor; exact IH.
Qed.

Lemma subseq_In {A} (l1 l2 : list A) : subseq l1 l2 -> forall a, In a l1 -> In a l2.
Proof.
  induction 1; simpl; intuition.
Qed.

Lemma no_none_all_some {A} (l : list (option A)) :
  existsb is_none l = false -> forall o, In o l -> exists a, o = Some a.
Proof.
  induction l as [| o l IH]; simpl; [contradiction |].
  intros H. apply orb_false_iff in H. destruct H as [Ho Hl].
  intros o' [<- | Hin]; [| auto].
  destruct o; [eauto | discriminate].
Qed.

Lemma no_none_mask (col : list (option string)) (pat : string) :
  existsb is_none (map (option_map (contains pat)) col) = existsb is_none col.
Proof.
  induction col as [| [s |] col IH]; simpl; congruence.
Qed.

(** ** RegionFilter *)

Lemma str_contains_inr (pat : string) col mask :
  str_contains pat col = inr mask -> mask = map (option_map (contains pat)) col.
Proof.
  unfold str_contains. destruct col as [| c col]; [intros H; inversion H; reflexivity |].
  destruct (forallb is_none (c :: col)); intros H; inversion H; reflexivity.
Qed.

(** What a successful run of the filter computes. *)
Lemma drop_totals_inr (sd sd' : DataFrame StateRecord.t) :
  drop_totals sd = inr sd' ->
  mem "state" (columns sd) = true /\
  (forall r, In r (records sd) -> exists s, StateRecord.state r = Some s) /\
  sd' = drop (map fst (filter (fun ir => is_total (snd ir)) (rows sd))) sd.
Proof.
  unfold drop_totals, getitem. intros H.
  destruct (mem "state" (columns sd)) eqn:Hc; [| discriminate].
  simpl in H. bind_inv H. apply str_contains_inr in Ha. subst a.
  unfold getitem_mask in H. rewrite no_none_mask in H.
  destruct (existsb is_none (map StateRecord.state (records sd))) eqn:Hn; [discriminate |].
  simpl in H. inversion H; subst sd'; clear H.
  split; [reflexivity |]. split.
  - intros r Hr. apply (no_none_all_some _ Hn). apply in_map. exact Hr.
  - f_equal. unfold index_of, getitem_bool, records. simpl. f_equal.
    rewrite map_map, map_map, select_map_snd.
    apply filter_ext. intros [i r]. unfold is_total. simpl.
    destruct (StateRecord.state r); reflexivity.
Qed.

Lemma drop_keeps_unlisted {R} (keep : R -> bool) (df : DataFrame R) :
  NoDup (index_of df) ->
  rows (drop (map fst (filter (fun ir => negb (keep (snd ir))) (rows df))) df)
  = filter (fun ir => keep (snd ir)) (rows df).
Proof.
  unfold drop, index_of. simpl. intros Hnd.
  apply filter_ext_in. intros [i r] Hin. simpl.
  destruct (keep r) eqn:Hk; simpl.
  - apply negb_true_iff. apply not_true_is_false. intros H.
    apply existsb_exists in H. destruct H as (j & Hj & E).
    apply Nat.eqb_eq in E. subst j.
    apply in_map_iff in Hj. destruct Hj as ([i' r'] & E & Hf). simpl in E. subst i'.
    apply filter_In in Hf. destruct Hf as [Hin' Hk']. simpl in Hk'.
    assert (r' = r) as ->.
    { clear - Hnd Hin Hin'. induction (rows df) as [| [j s] l IH]; [contradiction |].
      simpl in Hnd. inversion Hnd as [| ? ? Hni Hnd']; subst.
      destruct Hin as [E | Hin], Hin' as [E' | Hin'].
      - congruence.
      - inversion E; subst. exfalso. apply Hni. apply (in_map fst _ _ Hin').
      - inversion E'; subst. exfalso. apply Hni. apply (in_map fst _ _ Hin).
      - auto. }
    rewrite Hk in Hk'. discriminate.
  - apply negb_false_iff. apply existsb_exists. exists i. split; [| apply Nat.eqb_refl].
    apply in_map_iff. exists (i, r). split; [reflexivity |].
    apply filter_In. split; [exact Hin | simpl; rewrite Hk; reflexivity].
Qed.

(** C6.  Whenever the rollup filter of [index] succeeds, every record it
    leaves has a region name without "Total" in it, the records left are
    the original ones in their original order, and, the index labels being
    distinct (as [read_json] makes them), exactly the rollup records went. *)
Theorem drop_totals_no_total_in_order (sd sd' : DataFrame StateRecord.t) :
  drop_totals sd = inr sd' ->
  (forall r, In r (records sd') ->
     exists s, StateRecord.state r = Some s /\ ~ Substring "Total" s) /\
  subseq (rows sd') (rows sd) /\
  columns sd' = columns sd /\
  (NoDup (index_of sd) ->
   rows sd' = filter (fun ir => negb (is_total (snd ir))) (rows sd)).
Proof.
  intros H. apply drop_totals_inr in H. destruct H as (_ & Hsome & ->).
  split; [| split; [| split]].
  - intros r Hr. unfold records in Hr. apply in_map_iff in Hr.
    destruct Hr as ([i r'] & E & Hin). simpl in E. subst r'.
    unfold drop in Hin. simpl in Hin. apply filter_In in Hin.
    destruct Hin as [Hin Hlab]. simpl in Hlab.
    destruct (Hsome r) as (s & Hs).
    { unfold records. apply (in_map snd _ _ Hin). }
    exists s. split; [exact Hs |]. intros Hsub.
    apply contains_spec in Hsub.
    apply negb_true_iff in Hlab.
    assert (existsb (Nat.eqb i)
              (map fst (filter (fun ir => is_total (snd ir)) (rows sd))) = true) as Hex.
    { apply existsb_exists. exists i. split; [| apply Nat.eqb_refl].
      apply in_map_iff. exists (i, r). split; [reflexivity |].
      apply filter_In. split; [exact Hin |]. unfold is_total. simpl.
      rewrite Hs. exact Hsub. }
    congruence.
  - apply filter_subseq.
  - reflexivity.
  - intros Hnd.
    rewrite <- (drop_keeps_unlisted (fun r => negb (is_total r)) sd Hnd).
    do 3 f_equal. apply filter_ext. intros ir. rewrite negb_involutive. reflexivity.
Qed.

Example sample_region_filter :
  option_map (fun df => map StateRecord.state (records df))
    match drop_totals Sample.state_data with inr df => Some df | inl _ => None end
  = Some [Some "New York"; Some "New York City"; Some "District of Columbia";
          Some "New York"; Some "New York"].
Proof. vm_compute. reflexivity. Qed.

Example sample_age_by_state :
  age_by_state Sample.new_york "New York"
  = inr (mkStatePlot [Some "Under 1 year"; Some "25-34 years"]
           "Deaths x Age - New York"
           [("25-34 years", [10; 110; 3; 1; 0; 12]%Z);
            ("Under 1 year", [2; 102; 3; 1; 0; 4]%Z)],
         [("25-34 years", [10; 110; 3; 1; 0; 12]%Z);
          ("Under 1 year", [2; 102; 3; 1; 0; 4]%Z)]).
Proof. vm_compute. reflexivity. Qed.

Example sample_deaths_by_county :
  deaths_by_county Sample.state_mapping Sample.county_data Sample.mortality "New York"
  = Plot (mkFigure "New York - Covid Deaths"
            (Source.mk
               [Geometry.lons Sample.albany; Geometry.lons Sample.bronx;
                Geometry.lons Sample.kings]
               [Geometry.lats Sample.albany; Geometry.lats Sample.bronx;
                Geometry.lats Sample.kings]
               ["Albany"; "Bronx"; "Kings"]
               [5 # 1; 0 # 1; 0 # 1]%Q)
            (mkLinearColorMapper (Some (0 # 1)%Q) (5 # 1)%Q)).
Proof. vm_compute. reflexivity. Qed.

Lemma drop_totals_no_total_in_order_witness :
  exists sd',
    drop_totals Sample.state_data = inr sd' /\
    List.length (records sd') = 5%nat /\
    (forall r, In r (records sd') ->
       exists s, StateRecord.state r = Some s /\ ~ Substring "Total" s) /\
    subseq (rows sd') (rows Sample.state_data).
Proof.
  eexists. split; [vm_compute; reflexivity |]. split; [reflexivity |].
  pose proof (drop_totals_no_total_in_order Sample.state_data _
                ltac:(vm_compute; reflexivity)) as H.
  split; apply H.
Defined.

(** ** The request handler *)

Lemma cell_eq_true (a b : option string) : cell_eq a b = true <-> a = b.
Proof.
  destruct a as [s |], b as [t |]; simpl; split; intros H;
    try discriminate; try reflexivity.
  - apply String.eqb_eq in H. congruence.
  - inversion H. apply String.eqb_refl.
Qed.

(** What a successful request computed on the way. *)
Lemma index_inr sm cd comps arg sd cd' ctx :
  index sm cd comps arg sd cd' = inr ctx ->
  exists sd',
    drop_totals sd = inr sd' /\
    comps (CountyModel
             (deaths_by_county sm cd cd'
                match arg with None => "New York" | Some s => s end))
      = inr (county_script ctx, county_div ctx) /\
    states ctx = selectable (map StateRecord.state (records sd')).
Proof.
  unfold index. intros H.
  bind_inv H. exists a. split; [exact Ha |].
  bind_inv H. destruct a0 as [state_plot df]. cbv zeta in H.
  bind_inv H. destruct a0 as [ss sdv]. cbv zeta in H.
  bind_inv H. destruct a0 as [cs cdv]. cbv zeta in H.
  bind_inv H. unfold getitem in Ha3.
  destruct (mem "state" (columns a)); [| discriminate].
  inversion Ha3; subst a0. inversion H; subst ctx. simpl.
  split; [exact Ha2 | reflexivity].
Qed.

(** C8.  A state dataset without a region column makes the rollup filter
    raise [KeyError], and the request handler, which does not catch it,
    raises the same error instead of a page. *)
Theorem absent_state_column_raises sm cd comps arg
    (sd : DataFrame StateRecord.t) (cd' : DataFrame CountyRecord.t) :
  ~ In "state" (columns sd) ->
  drop_totals sd = inl (KeyError "state") /\
  index sm cd comps arg sd cd' = inl (KeyError "state").
Proof.
  intros Hno.
  assert (mem "state" (columns sd) = false) as Hm.
  { apply not_true_is_false. intros H. apply Hno, mem_In, H. }
  assert (drop_totals sd = inl (KeyError "state")) as Hd.
  { unfold drop_totals, getitem. rewrite Hm. reflexivity. }
  split; [exact Hd |]. unfold index. rewrite Hd. reflexivity.
Qed.

Lemma absent_state_column_raises_witness :
  ~ In "state" (columns Sample.no_state_column) /\
  index Sample.state_mapping Sample.county_data Sample.components (Some "New York")
    Sample.no_state_column Sample.mortality = inl (KeyError "state").
Proof.
  assert (~ In "state" (columns Sample.no_state_column)) as H.
  { simpl. intros [H | [H | [H | []]]]; discriminate. }
  split; [exact H |].
  apply (absent_state_column_raises Sample.state_mapping Sample.county_data
           Sample.components (Some "New York") Sample.no_state_column Sample.mortality H).
Defined.

(** C9, as stated, fails: the region list of a request on a dataset with
    a record for the capital's district still offers that district. *)
Lemma capital_district_stays_selectable :
  exists ctx,
    index Sample.state_mapping Sample.county_data Sample.components None
      Sample.state_data Sample.mortality = inr ctx /\
    In (Some "District of Columbia") (states ctx).
Proof.
  eexists. split; [vm_compute; reflexivity |].
  simpl. right. left. reflexivity.
Qed.

(** C9, amended.  The region list handed to the template never holds the
    entry "New York City": it is the region column of the cleaned dataset,
    in row order, without the cells equal to that string, and every other
    cell is kept. *)
Theorem states_exclude_new_york_city sm cd comps arg
    (sd : DataFrame StateRecord.t) (cd' : DataFrame CountyRecord.t) ctx :
  index sm cd comps arg sd cd' = inr ctx ->
  ~ In (Some "New York City") (states ctx) /\
  exists sd',
    drop_totals sd = inr sd' /\
    subseq (states ctx) (map StateRecord.state (records sd')) /\
    forall x, In x (states ctx) <->
              In x (map StateRecord.state (records sd')) /\ x <> Some "New York City".
Proof.
  intros H. apply index_inr in H. destruct H as (sd' & Hd & _ & Hs).
  assert (forall x, In x (states ctx) <->
                    In x (map StateRecord.state (records sd')) /\
                    x <> Some "New York City") as Hiff.
  { intros x. rewrite Hs. unfold selectable. rewrite filter_In, negb_true_iff.
    split; intros [Hin Hx]; split; try exact Hin.
    - intros E. apply cell_eq_true in E. congruence.
    - apply not_true_is_false. intros E. apply cell_eq_true in E. contradiction. }
  split.
  - intros Hin. apply Hiff in Hin. destruct Hin as [_ Hne]. apply Hne. reflexivity.
  - exists sd'. split; [exact Hd |]. split; [| exact Hiff].
    rewrite Hs. apply filter_subseq.
Qed.

Lemma states_exclude_new_york_city_witness :
  exists ctx,
    index Sample.state_mapping Sample.county_data Sample.components None
      Sample.state_data Sample.mortality = inr ctx /\
    ~ In (Some "New York City") (states ctx).
Proof.
  eexists. split; [vm_compute; reflexivity |].
  refine (proj1 (states_exclude_new_york_city Sample.state_mapping Sample.county_data
                   Sample.components None Sample.state_data Sample.mortality _ _)).
  vm_compute. reflexivity.
Defined.

(** ** Frames *)

Lemma map_snd_combine_seq {A} (l : list A) (n : nat) :
  map snd (combine (seq n (List.length l)) l) = l.
Proof.
  revert n; induction l as [| a l IH]; intros n; simpl; [reflexivity |].
  rewrite IH. reflexivity.
Qed.

Lemma records_read_json {R} (cols : list string) (recs : list R) :
  records (read_json cols recs) = recs.
Proof. unfold records, read_json. simpl. apply map_snd_combine_seq. Qed.

Lemma records_mk {R} (cols : list string) (rws : list (nat * R)) :
  records (mkDataFrame cols rws) = map snd rws.
Proof. reflexivity. Qed.

Lemma map_snd_filter {A B} (f : B -> bool) (l : list (A * B)) :
  map snd (filter (fun ir => f (snd ir)) l) = filter f (map snd l).
Proof.
  induction l as [| [i r] l IH]; simpl; [reflexivity |].
  destruct (f r); simpl; rewrite IH; reflexivity.
Qed.

Lemma records_getitem_bool {R A} (df : DataFrame R) (field : R -> A) (f : A -> bool) :
  records (getitem_bool df (map f (map field (records df))))
  = filter (fun r => f (field r)) (records df).
Proof.
  unfold records, getitem_bool. simpl.
  rewrite (map_map field f), select_map_snd.
  apply (map_snd_filter (fun r => f (field r))).
Qed.

Lemma combine_map_self {A B} (f : A -> B) (l : list A) :
  combine l (map f l) = map (fun a => (a, f a)) l.
Proof. induction l as [| a l IH]; simpl; [reflexivity | rewrite IH; reflexivity]. Qed.

Lemma map_snd_combine {A B} (l1 : list A) (l2 : list B) :
  List.length l1 = List.length l2 -> map snd (combine l1 l2) = l2.
Proof.
  revert l2; induction l1 as [| a l1 IH]; intros [| b l2] H; simpl in *;
    try discriminate; try reflexivity.
  rewrite IH; [reflexivity | lia].
Qed.

Lemma find_none_all (cols labels : list string) :
  find (fun c => negb (mem c cols)) labels = None ->
  forall c, In c labels -> In c cols.
Proof.
  intros H c Hc. apply mem_In.
  pose proof (find_none _ _ H c Hc) as Hn. simpl in Hn.
  apply negb_false_iff in Hn. exact Hn.
Qed.

Lemma mem_app_l (c : string) (l1 l2 : list string) :
  mem c (l1 ++ l2)%list = mem c l1 || mem c l2.
Proof. unfold mem. apply existsb_app. Qed.

Lemma getitem_inr {R A} (df : DataFrame R) (c : string) (field : R -> A) col :
  getitem df c field = inr col -> In c (columns df) /\ col = map field (records df).
Proof.
  unfold getitem. destruct (mem c (columns df)) eqn:Hc; [| discriminate].
  intros H. inversion H. split; [apply mem_In, Hc | reflexivity].
Qed.

Lemma getattr_inr {R A} (df : DataFrame R) (c : string) (field : R -> A) col :
  getattr df c field = inr col -> In c (columns df) /\ col = map field (records df).
Proof.
  unfold getattr. destruct (mem c (columns df)) eqn:Hc; [| discriminate].
  intros H. inversion H. split; [apply mem_In, Hc | reflexivity].
Qed.

Lemma drop_columns_inr {R} (labels : list string) (df df' : DataFrame R) :
  drop_columns labels df = inr df' -> forall c, In c labels -> In c (columns df).
Proof.
  unfold drop_columns.
  destruct (find (fun c => negb (mem c (columns df))) labels) eqn:Hf; [discriminate |].
  intros _. apply find_none_all. exact Hf.
Qed.

Lemma flat_map_map {A B C} (f : B -> list C) (g : A -> B) (l : list A) :
  flat_map f (map g l) = flat_map (fun a => f (g a)) l.
Proof. induction l as [| a l IH]; simpl; [reflexivity | rewrite IH; reflexivity]. Qed.

(** ** CountyJoinEngine *)

Lemma unpack_resolve sm state code name :
  unpack (filter_state (filter (fun cn => String.eqb (snd cn) state) sm))
    = inr (code, name) ->
  resolve sm state = Some (code, state) /\ name = state.
Proof.
  unfold resolve.
  destruct (filter (fun cn => String.eqb (snd cn) state) sm) as [| [k v] l] eqn:Hf;
    simpl; [discriminate |].
  intros H. inversion H; subst k v.
  assert (In (code, name) (filter (fun cn => String.eqb (snd cn) state) sm)) as Hin.
  { rewrite Hf. left. reflexivity. }
  apply filter_In in Hin. destruct Hin as [_ E]. simpl in E.
  apply String.eqb_eq in E. subst name. split; reflexivity.
Qed.

Lemma merged_columns_covid_death (lcols : list string) :
  In "covid_death" (merged_columns lcols (Geometry.keys ++ ["county_key"])%list) ->
  In "covid_death" lcols.
Proof.
  unfold merged_columns. intros H. apply in_app_or in H. destruct H as [H | H].
  - apply in_map_iff in H. destruct H as (c & E & Hc).
    destruct (mem c (Geometry.keys ++ ["county_key"])%list) eqn:Hm.
    + apply mem_In in Hm. simpl in Hm.
      repeat (destruct Hm as [<- | Hm]; [discriminate |]). contradiction.
    + subst c. exact Hc.
  - exfalso. simpl in H.
    repeat match type of H with
           | context [mem ?c lcols] => destruct (mem c lcols)
           end;
      simpl in H;
      repeat (destruct H as [H | H]; [discriminate |]); contradiction.
Qed.

Lemma merged_columns_reserved (lcols : list string) (c : string) :
  In c county_reserved ->
  In c (merged_columns lcols (Geometry.keys ++ ["county_key"])%list) ->
  ~ In c lcols.
Proof.
  unfold merged_columns. intros Hc H Hl.
  assert (mem c lcols = true) as Hm by (apply mem_In, Hl).
  apply in_app_or in H. destruct H as [H | H].
  - apply in_map_iff in H. destruct H as (d & E & Hd).
    destruct (mem d (Geometry.keys ++ ["county_key"])%list) eqn:Hmd.
    + apply mem_In in Hmd. simpl in Hmd, Hc.
      repeat (destruct Hmd as [<- | Hmd];
              [repeat (destruct Hc as [<- | Hc]; [discriminate |]); contradiction |]).
      contradiction.
    + subst d. simpl in Hc.
      repeat (destruct Hc as [<- | Hc]; [discriminate |]). contradiction.
  - simpl in H, Hc.
    repeat (destruct Hc as [<- | Hc];
            [rewrite ?Hm in H;
             repeat match type of H with
                    | context [mem ?d lcols] => destruct (mem d lcols)
                    end;
             simpl in H;
             repeat (destruct H as [H | H]; [discriminate |]); contradiction |]).
    contradiction.
Qed.

Lemma merge_right_inr left obj right df :
  merge_right left obj right = inr df ->
  In "county_name" (columns left) /\
  columns df = merged_columns (columns left) (columns right) /\
  records df = flat_map (fun g =>
                           match matches (snd g) (records left) with
                           | [] => [Merged.mk None (fst g) (snd g)]
                           | ms => map (fun r => Merged.mk (Some r) (fst g) (snd g)) ms
                           end) (records right) /\
  (rows left = [] \/ rows right = [] \/ obj = true).
Proof.
  unfold merge_right.
  destruct (mem "county_name" (columns left)) eqn:Hl; simpl; [| discriminate].
  destruct (mem "county_key" (columns right)) eqn:Hr; simpl; [| discriminate].
  destruct (Bool.eqb (nonempty (rows left)) (nonempty (rows right)) && negb obj)
    eqn:Hk; [discriminate |].
  intros H. inversion H; subst df.
  split; [apply mem_In, Hl |]. split; [reflexivity |].
  split; [apply records_read_json |].
  destruct (rows left); [left; reflexivity |].
  destruct (rows right); [right; left; reflexivity |].
  destruct obj; [right; right; reflexivity | discriminate].
Qed.

Lemma object_dtype_true {R} (field : R -> option string) (l : list R) :
  object_dtype (map field l) = true <->
  l = [] \/ exists r, In r l /\ field r <> None.
Proof.
  destruct l as [| a l]; [simpl; split; auto |].
  change (object_dtype (map field (a :: l)))
    with (existsb is_text (map field (a :: l))).
  rewrite existsb_exists. split.
  - intros (c & Hc & Ht). right. apply in_map_iff in Hc. destruct Hc as (r & <- & Hr).
    exists r. split; [exact Hr |]. destruct (field r); [discriminate | discriminate].
  - intros [E | (r & Hr & Hne)]; [discriminate |].
    exists (field r). split; [apply in_map, Hr |].
    destruct (field r); [reflexivity | congruence].
Qed.

Lemma deaths_by_county_try_inr_keys sm cd data state p :
  deaths_by_county_try sm cd data state = inr p ->
  exists code hi,
    resolve sm state = Some (code, state) /\
    (forall c, In c county_required -> In c (columns data)) /\
    (forall c, In c county_reserved -> ~ In c (columns data)) /\
    region_geometry cd code <> [] /\
    keys_mergeable data code /\
    pymax (map rate_of (joined (region_records data code) (region_geometry cd code)))
      = inr hi /\
    p = figure_of state
          (joined (region_records data code) (region_geometry cd code)) hi.
Proof.
  unfold deaths_by_county_try. intros H.
  bind_inv H. destruct a as [state_code state_name]. cbv zeta in H.
  apply unpack_resolve in Ha. destruct Ha as [Hres ->].
  bind_inv H. apply getitem_inr in Ha. destruct Ha as [Hsn ->].
  bind_inv H. pose proof (drop_columns_inr _ _ _ Ha) as Hdates. simpl in Hdates. clear Ha a.
  fold (region_geometry cd state_code) in H.
  bind_inv H.
  destruct (region_geometry cd state_code) as [| g geos] eqn:Hgeo;
    [discriminate |].
  rewrite <- Hgeo in *.
  assert (DataFrame_of_dicts (region_geometry cd state_code)
          = read_json Geometry.keys (region_geometry cd state_code)) as Hdf.
  { rewrite Hgeo. reflexivity. }
  rewrite Hdf in *. clear Hdf.
  apply getitem_inr in Ha. destruct Ha as [_ ->].
  rewrite records_read_json in H.
  bind_inv H. apply merge_right_inr in Ha. destruct Ha as (Hcn & Hcols & Hrecs & Hkeys).
  simpl columns in Hcols.
  assert (keys_mergeable data state_code) as Hmerge.
  { unfold keys_mergeable. destruct Hkeys as [Hl | [Hr | Ho]].
    - left. unfold region_records.
      rewrite <- (records_getitem_bool data CountyRecord.state_name
                    (cell_eqb state_code)).
      unfold records at 1. rewrite Hl. reflexivity.
    - exfalso. simpl in Hr. unfold index_of, read_json in Hr. simpl in Hr.
      rewrite Hgeo in Hr. discriminate.
    - apply object_dtype_true in Ho. destruct Ho as [E | Ho]; [| right; exact Ho].
      left. unfold region_records. rewrite E. reflexivity. }
  clear Hkeys.
  rewrite records_getitem_bool in Hrecs. fold (region_records data state_code) in Hrecs.
  rewrite records_mk, map_snd_combine in Hrecs.
  2:{ unfold index_of, read_json. simpl.
      repeat rewrite ?length_map, ?length_combine, ?length_seq. lia. }
  rewrite map_map, combine_map_self, flat_map_map in Hrecs. simpl in Hrecs.
  assert (records a = joined (region_records data state_code)
                        (region_geometry cd state_code)) as Hj.
  { rewrite Hrecs. reflexivity. }
  clear Hrecs.
  bind_inv H. apply getattr_inr in Ha0. destruct Ha0 as [Hcovid ->].
  rewrite Hcols in Hcovid. apply merged_columns_covid_death in Hcovid.
  bind_inv H. apply getattr_inr in Ha0. destruct Ha0 as [Hlons ->].
  bind_inv H. apply getattr_inr in Ha0. destruct Ha0 as [Hlats ->].
  bind_inv H. apply getattr_inr in Ha0. destruct Ha0 as [Hname ->].
  rewrite Hcols in Hlons, Hlats, Hname.
  bind_inv H. rewrite !map_map, Hj in *.
  exists state_code, a0. split; [exact Hres |]. split; [| split].
  - unfold county_required. simpl. intros c Hc.
    repeat (destruct Hc as [<- | Hc]; [auto |]). contradiction.
  - intros c Hc. apply merged_columns_reserved; [exact Hc |].
    simpl in Hc. repeat (destruct Hc as [<- | Hc]; [assumption |]). contradiction.
  - split; [rewrite Hgeo; discriminate |]. split; [exact Hmerge |].
    split; [exact Ha0 |].
    inversion H. reflexivity.
Qed.

Lemma deaths_by_county_try_inr sm cd data state p :
  deaths_by_county_try sm cd data state = inr p ->
  exists code hi,
    resolve sm state = Some (code, state) /\
    (forall c, In c county_required -> In c (columns data)) /\
    (forall c, In c county_reserved -> ~ In c (columns data)) /\
    region_geometry cd code <> [] /\
    pymax (map rate_of (joined (region_records data code) (region_geometry cd code)))
      = inr hi /\
    p = figure_of state
          (joined (region_records data code) (region_geometry cd code)) hi.
Proof.
  intros H. apply deaths_by_county_try_inr_keys in H.
  destruct H as (code & hi & H1 & H2 & H3 & H4 & _ & H5 & H6).
  exists code, hi. repeat (split; [assumption |]). exact H6.
Qed.

(** ** Sorting *)

Section Sorting.

Context {A : Type} (leb : A -> A -> bool).

Let le (a b : A) : Prop := leb a b = true.

Hypothesis leb_total : forall a b, leb a b = true \/ leb b a = true.
Hypothesis leb_trans : forall a b c, leb a b = true -> leb b c = true -> leb a c = true.

Lemma insert_perm (a : A) (l : list A) : Permutation (a :: l) (insert leb a l).
Proof.
  induction l as [| b l IH]; simpl; [reflexivity |].
  destruct (leb a b); [reflexivity |].
  rewrite perm_swap. apply perm_skip. exact IH.
Qed.

Lemma sort_perm (l : list A) : Permutation l (sort leb l).
Proof.
  induction l as [| a l IH]; simpl; [reflexivity |].
  rewrite <- insert_perm. apply perm_skip. exact IH.
Qed.

Lemma insert_sorted (a : A) (l : list A) :
  StronglySorted le l -> StronglySorted le (insert leb a l).
Proof.
  induction 1 as [| b l Hs IH Hb]; simpl.
  - constructor; constructor.
  - destruct (leb a b) eqn:Hab.
    + constructor; [constructor; assumption |].
      constructor; [exact Hab |].
      apply Forall_impl with (P := le b); [| exact Hb].
      intros c Hc. apply (leb_trans _ _ _ Hab Hc).
    + constructor; [exact IH |].
      apply (Permutation_Forall (insert_perm a l)).
      constructor; [| exact Hb].
      destruct (leb_total a b) as [H | H]; [congruence | exact H].
Qed.

Lemma sort_sorted (l : list A) : StronglySorted le (sort leb l).
Proof.
  induction l as [| a l IH]; simpl; [constructor | apply insert_sorted, IH].
Qed.

Hypothesis leb_antisym : forall a b, leb a b = true -> leb b a = true -> a = b.



End Sorting.

Lemma string_compare_trans (a b c : string) :
  String.compare a b <> Gt -> String.compare b c <> Gt -> String.compare a c <> Gt.
Proof.
  revert b c; induction a as [| x a IH]; intros [| y b] [| z c]; simpl;
    try congruence.
  unfold Ascii.compare.
  destruct (N.compare_spec (N_of_ascii x) (N_of_ascii y)) as [Exy | Lxy | Gxy];
    destruct (N.compare_spec (N_of_ascii y) (N_of_ascii z)) as [Eyz | Lyz | Gyz];
    destruct (N.compare_spec (N_of_ascii x) (N_of_ascii z)) as [Exz | Lxz | Gxz];
    try congruence; try lia; try discriminate.
  apply IH.
Qed.

Lemma string_leb_iff (a b : string) : String.leb a b = true <-> String.compare a b <> Gt.
Proof.
  unfold String.leb. destruct (String.compare a b); split; congruence.
Qed.

Lemma string_leb_trans (a b c : string) :
  String.leb a b = true -> String.leb b c = true -> String.leb a c = true.
Proof. rewrite !string_leb_iff. apply string_compare_trans. Qed.

Lemma Qle_bool_total (a b : Q) : Qle_bool a b = true \/ Qle_bool b a = true.
Proof.
  rewrite !Qle_bool_iff. destruct (Qlt_le_dec a b) as [H | H].
  - left. apply Qlt_le_weak, H.
  - right. exact H.
Qed.

Lemma Qle_bool_trans (a b c : Q) :
  Qle_bool a b = true -> Qle_bool b c = true -> Qle_bool a c = true.
Proof. rewrite !Qle_bool_iff. apply Qle_trans. Qed.

(** ** Distinct values in order of first appearance *)

Section Unique.

Context {A : Type} (eqb : A -> A -> bool).
Hypothesis eqb_eq : forall a b, eqb a b = true <-> a = b.

Lemma unique_In (l : list A) (a : A) : In a (unique eqb l) <-> In a l.
Proof.
  induction l as [| b l IH]; simpl; [reflexivity |].
  rewrite filter_In, IH, negb_true_iff. split.
  - intros [H | [H _]]; auto.
  - intros [H | H]; [auto |].
    destruct (eqb a b) eqn:E.
    + left. symmetry. apply eqb_eq, E.
    + right. split; [exact H | reflexivity].
Qed.

Lemma unique_NoDup (l : list A) : NoDup (unique eqb l).
Proof.
  induction l as [| b l IH]; simpl; constructor.
  - rewrite filter_In, negb_true_iff. intros [_ H].
    assert (eqb b b = true) by (apply eqb_eq; reflexivity). congruence.
  - apply NoDup_filter, IH.
Qed.


Lemma filter_filter (f g : A -> bool) (l : list A) :
  filter f (filter g l) = filter (fun a => g a && f a) l.
Proof.
  induction l as [| a l IH]; simpl; [reflexivity |].
  destruct (g a); simpl; [destruct (f a) |]; rewrite IH; reflexivity.
Qed.

(** The values of a prefix come first, then the values new in the rest. *)
Lemma unique_app (p q : list A) :
  unique eqb (p ++ q)
  = (unique eqb p ++ filter (fun c => negb (existsb (eqb c) p)) (unique eqb q))%list.
Proof.
  induction p as [| a p IH]; simpl.
  - symmetry. apply forallb_filter_id. apply forallb_forall. reflexivity.
  - f_equal. rewrite IH, filter_app, filter_filter. f_equal.
    apply filter_ext. intros c. rewrite negb_orb. apply andb_comm.
Qed.

Lemma unique_first_seen (l p q : list A) :
  l = (p ++ q)%list ->
  exists rest, unique eqb l = (unique eqb p ++ rest)%list /\
               forall c, In c rest -> ~ In c p.
Proof.
  intros ->. eexists. split; [apply unique_app |].
  intros c Hc Hp. apply filter_In in Hc. destruct Hc as [_ Hc].
  apply negb_true_iff in Hc.
  assert (existsb (eqb c) p = true) as Hex; [| congruence].
  apply existsb_exists. exists c. split; [exact Hp | apply eqb_eq; reflexivity].
Qed.

End Unique.

(** ** AgeCohortAggregator *)

Lemma age_by_state_eq (data : DataFrame StateRecord.t) (state : string) :
  age_by_state data state =
  if mem "state" (columns data) then
    if mem "age_group" (columns data) then
      match find (fun c => negb (mem c (columns data))) STATE_FIGURES with
      | Some c => inl (KeyError c)
      | None =>
          let df_age := cohort_table (cohort_records data state) in
          inr (mkStatePlot
                 (unique cell_eq (map StateRecord.age_group (cohort_records data state)))
                 (String.append "Deaths x Age - " state) df_age,
               df_age)
      end
    else inl (KeyError "age_group")
  else inl (KeyError "state").
Proof.
  unfold age_by_state, groupby_age_group_sum, getitem, getattr.
  destruct (mem "state" (columns data)) eqn:Hs; [| reflexivity].
  unfold ret. cbn [bind columns getitem_bool].
  destruct (mem "age_group" (columns data)) eqn:Ha; [| reflexivity].
  cbn [bind].
  change (mkDataFrame (columns data)
            (select (map (cell_eqb state) (map StateRecord.state (records data)))
                    (rows data)))
    with (getitem_bool data (map (cell_eqb state) (map StateRecord.state (records data)))).
  set (df1 := getitem_bool data _).
  change (mkDataFrame (columns data)
            (select (map (isin AGE_GROUPS) (map StateRecord.age_group (records df1)))
                    (rows df1)))
    with (getitem_bool df1 (map (isin AGE_GROUPS) (map StateRecord.age_group (records df1)))).
  rewrite !records_getitem_bool. subst df1. rewrite records_getitem_bool.
  fold (cohort_records data state).
  destruct (find (fun c => negb (mem c (columns data))) STATE_FIGURES); reflexivity.
Qed.

Lemma texts_In (col : list (option string)) (k : string) :
  In k (texts col) <-> In (Some k) col.
Proof.
  unfold texts. rewrite in_flat_map. split.
  - intros ([s |] & Hin & Hk); simpl in Hk; [| contradiction].
    destruct Hk as [-> | []]. exact Hin.
  - intros H. exists (Some k). split; [exact H | left; reflexivity].
Qed.

Lemma cohort_table_keys (recs : list StateRecord.t) :
  map fst (cohort_table recs)
  = sort String.leb (unique String.eqb (texts (map StateRecord.age_group recs))).
Proof. unfold cohort_table. rewrite map_map. simpl. apply map_id. Qed.

Lemma filter_perm {A} (f : A -> bool) (l1 l2 : list A) :
  Permutation l1 l2 -> Permutation (filter f l1) (filter f l2).
Proof.
  induction 1 as [| a l1 l2 Hp IH | a b l | l1 l2 l3 H12 IH12 H23 IH23]; simpl.
  - constructor.
  - destruct (f a); [apply perm_skip |]; exact IH.
  - destruct (f a), (f b); try reflexivity. apply perm_swap.
  - etransitivity; eassumption.
Qed.

Lemma wrap64_add_r (a b : Z) : wrap64 (a + wrap64 b) = wrap64 (a + b).
Proof.
  unfold wrap64. f_equal.
  replace (a + ((b + 9223372036854775808) mod 18446744073709551616
                - 9223372036854775808) + 9223372036854775808)%Z
    with (a + (b + 9223372036854775808) mod 18446744073709551616)%Z by lia.
  rewrite Z.add_mod_idemp_r by lia. f_equal. lia.
Qed.

Lemma wrap64_small (z : Z) :
  (- 9223372036854775808 <= z < 9223372036854775808)%Z -> wrap64 z = z.
Proof.
  intros H. unfold wrap64. rewrite Z.mod_small by lia. lia.
Qed.

Lemma nansum_exact (col : list (option Z)) : nansum col = wrap64 (exact_sum col).
Proof.
  induction col as [| [z |] col IH]; simpl.
  - reflexivity.
  - rewrite IH. apply wrap64_add_r.
  - exact IH.
Qed.






(** C5, as stated, fails: for the two New York rows of the scenario, in
    the order "Under 1 year" then "25-34 years", the table [age_by_state]
    returns lists "25-34 years" first. *)
Lemma cohort_table_lists_25_34_first :
  exists plot df_age,
    age_by_state Sample.new_york "New York" = inr (plot, df_age) /\
    map StateRecord.age_group (records Sample.new_york)
      = [Some "Under 1 year"; Some "25-34 years"] /\
    df_age = [("25-34 years", [10; 110; 3; 1; 0; 12]%Z);
              ("Under 1 year", [2; 102; 3; 1; 0; 4]%Z)].
Proof.
  eexists. eexists. split; [vm_compute; reflexivity |]. split; reflexivity.
Qed.

(** C5, amended.  When [age_by_state] succeeds, the cohort axis of the
    chart ([x_range]) lists the age groups of the region's records in the
    order they first appear: no group twice, and for every split of the
    rows the groups of the first part come before the groups new in the
    second.  The table of sums holds the same cohorts in ascending order of
    their label. *)
Theorem cohort_axis_first_seen_table_sorted
    (data : DataFrame StateRecord.t) (state : string) plot df_age :
  age_by_state data state = inr (plot, df_age) ->
  let ages := map StateRecord.age_group (cohort_records data state) in
  NoDup (x_range plot) /\
  (forall c, In c (x_range plot) <-> In c ages) /\
  (forall p q, ages = (p ++ q)%list ->
     exists rest, x_range plot = (unique cell_eq p ++ rest)%list /\
                  forall c, In c rest -> ~ In c p) /\
  StronglySorted (fun a b => String.leb a b = true) (map fst df_age) /\
  NoDup (map fst df_age) /\
  (forall k, In k (map fst df_age) <-> In (Some k) (x_range plot)).
Proof.
  intros H ages. rewrite age_by_state_eq in H.
  destruct (mem "state" (columns data)); [| discriminate].
  destruct (mem "age_group" (columns data)); [| discriminate].
  destruct (find (fun c => negb (mem c (columns data))) STATE_FIGURES); [discriminate |].
  cbv zeta in H. inversion H; subst plot df_age; clear H. simpl x_range.
  fold ages. rewrite cohort_table_keys. fold ages.
  split; [apply (unique_NoDup cell_eq cell_eq_true) |].
  split; [apply (unique_In cell_eq cell_eq_true) |].
  split; [intros p q; apply (unique_first_seen cell_eq cell_eq_true) |].
  split; [apply (sort_sorted String.leb String.leb_total string_leb_trans) |].
  split.
  - apply (Permutation_NoDup (sort_perm String.leb _)).
    apply (unique_NoDup String.eqb String.eqb_eq).
  - intros k.
    rewrite (unique_In cell_eq cell_eq_true), <- texts_In.
    rewrite <- (unique_In String.eqb String.eqb_eq (texts ages) k).
    split; apply Permutation_in;
      [apply Permutation_sym |]; apply (sort_perm String.leb).
Qed.

Lemma cohort_axis_first_seen_table_sorted_witness :
  exists plot df_age,
    age_by_state Sample.state_data "New York" = inr (plot, df_age) /\
    x_range plot = [Some "Under 1 year"; Some "25-34 years"] /\
    map fst df_age = ["25-34 years"; "Under 1 year"] /\
    NoDup (x_range plot) /\
    StronglySorted (fun a b => String.leb a b = true) (map fst df_age).
Proof.
  eexists. eexists. split; [vm_compute; reflexivity |].
  split; [reflexivity |]. split; [reflexivity |].
  pose proof (cohort_axis_first_seen_table_sorted Sample.state_data "New York" _ _
                ltac:(vm_compute; reflexivity)) as H.
  cbv zeta in H. split; [apply H | apply H].
Defined.





(** ** Median and maximum *)

Lemma pymax_fold (l : list Q) (a : Q) :
  let m := fold_left (fun m b => if Qle_bool b m then m else b) l a in
  In m (a :: l) /\ forall v, In v (a :: l) -> (v <= m)%Q.
Proof.
  revert a; induction l as [| b l IH]; intros a; simpl.
  - split; [left; reflexivity |]. intros v [<- | []]. apply Qle_refl.
  - destruct (Qle_bool b a) eqn:Hba.
    + apply Qle_bool_iff in Hba. destruct (IH a) as [Hin Hle]. simpl in Hin, Hle.
      split; [destruct Hin; auto |].
      intros v [<- | [<- | Hv]]; [apply Hle; auto | | apply Hle; auto].
      apply (Qle_trans _ a); [exact Hba | apply Hle; auto].
    + assert (a <= b)%Q as Hab.
      { destruct (Qlt_le_dec a b) as [H | H]; [apply Qlt_le_weak, H |].
        apply Qle_bool_iff in H. congruence. }
      destruct (IH b) as [Hin Hle]. simpl in Hin, Hle.
      split; [destruct Hin; auto |].
      intros v [<- | [<- | Hv]]; [| apply Hle; auto | apply Hle; auto].
      apply (Qle_trans _ b); [exact Hab | apply Hle; auto].
Qed.

Lemma pymax_spec (l : list Q) (hi : Q) : pymax l = inr hi -> is_maximum hi l.
Proof.
  destruct l as [| a l]; simpl; [discriminate |].
  intros H. inversion H. apply pymax_fold.
Qed.

Lemma pymax_total (l : list Q) : l <> [] -> exists hi, pymax l = inr hi.
Proof. destruct l; [congruence | intros _; eexists; reflexivity]. Qed.


Lemma filter_length_le {A} (f : A -> bool) (l : list A) :
  (List.length (filter f l) <= List.length l)%nat.
Proof. induction l as [| a l IH]; simpl; [lia |]. destruct (f a); simpl; lia. Qed.


Lemma sorted_nth_le (s : list Q) :
  StronglySorted Qleb_true s ->
  forall i j, (i <= j)%nat -> (j < List.length s)%nat -> (nth i s 0 <= nth j s 0)%Q.
Proof.
  induction 1 as [| a s Hs IH Ha]; intros i j Hij Hj; simpl in *; [lia |].
  destruct i as [| i], j as [| j]; try lia.
  - apply Qle_refl.
  - apply Qle_bool_iff. rewrite Forall_forall in Ha. apply Ha, nth_In. lia.
  - apply IH; lia.
Qed.

(** The middle value [median] picks lies between the two middle items of
    the sorted list. *)
Lemma median_between (l : list Q) (m : Q) :
  median l = Some m ->
  let s := sort Qle_bool l in
  let n := List.length s in
  (n / 2 < n)%nat /\ ((n - 1) / 2 < n)%nat /\
  (nth ((n - 1) / 2) s 0 <= m)%Q /\ (m <= nth (n / 2) s 0)%Q.
Proof.
  intros H s n. unfold median in H. cbv zeta in H. fold s in H. fold n in H.
  pose proof (sort_sorted Qle_bool Qle_bool_total Qle_bool_trans l) as Hs. fold s in Hs.
  destruct (Nat.eqb_spec n 0) as [| Hn]; [discriminate |].
  assert (n / 2 < n)%nat as H1 by (apply Nat.div_lt; lia).
  assert ((n - 1) / 2 < n)%nat as H2.
  { apply (Nat.le_lt_trans _ (n - 1)); [apply Nat.Div0.div_le_upper_bound; lia | lia]. }
  split; [exact H1 |]. split; [exact H2 |].
  destruct (Nat.odd n) eqn:Hodd.
  - assert (m = nth (n / 2) s 0%Q) as -> by congruence. clear H.
    apply Nat.odd_spec in Hodd. destruct Hodd as [h Hh].
    assert ((n - 1) / 2 = n / 2) as ->.
    { rewrite Hh. replace (2 * h + 1 - 1)%nat with (h * 2)%nat by lia.
      rewrite Nat.div_mul by lia.
      replace (2 * h + 1)%nat with (1 + h * 2)%nat by lia.
      rewrite Nat.div_add by lia. reflexivity. }
    split; apply Qle_refl.
  - set (a := nth (n / 2 - 1) s 0%Q) in *. set (b := nth (n / 2) s 0%Q) in *.
    assert (m = ((a + b) / 2)%Q) as -> by congruence. clear H.
    assert (Nat.even n = true) as Heven by (rewrite <- Nat.negb_odd, Hodd; reflexivity).
    apply Nat.even_spec in Heven. destruct Heven as [h Hh].
    assert ((n - 1) / 2 = n / 2 - 1)%nat as ->.
    { rewrite Hh. replace (2 * h)%nat with (h * 2)%nat by lia.
      rewrite Nat.div_mul by lia.
      destruct h as [| h]; [lia |].
      replace (S h * 2 - 1)%nat with (1 + h * 2)%nat by lia.
      rewrite Nat.div_add by lia. simpl. lia. }
    assert (nth (n / 2 - 1) s 0 <= nth (n / 2) s 0)%Q as Hle
      by (apply (sorted_nth_le s Hs); lia).
    fold a b in Hle. fold a b. clearbody a b. clear - Hle.
    split; [apply Qle_shift_div_l | apply Qle_shift_div_r]; lra.
Qed.

Lemma median_total (l : list Q) : l <> [] -> exists m, median l = Some m.
Proof.
  intros Hl. unfold median.
  assert (List.length (sort Qle_bool l) <> 0%nat) as Hn.
  { rewrite <- (Permutation_length (sort_perm Qle_bool l)).
    destruct l; [congruence | discriminate]. }
  apply Nat.eqb_neq in Hn. rewrite Hn.
  destruct (Nat.odd _); eexists; reflexivity.
Qed.



(** ** CountyJoinEngine: when the plot is produced *)

Lemma getitem_ok {R A} (df : DataFrame R) (c : string) (field : R -> A) :
  In c (columns df) -> getitem df c field = inr (map field (records df)).
Proof. intros H. apply mem_In in H. unfold getitem. rewrite H. reflexivity. Qed.

Lemma getattr_ok {R A} (df : DataFrame R) (c : string) (field : R -> A) :
  In c (columns df) -> getattr df c field = inr (map field (records df)).
Proof. intros H. apply mem_In in H. unfold getattr. rewrite H. reflexivity. Qed.

Lemma drop_columns_ok {R} (labels : list string) (df : DataFrame R) :
  (forall c, In c labels -> In c (columns df)) ->
  exists df', drop_columns labels df = inr df'.
Proof.
  intros H. unfold drop_columns.
  destruct (find (fun c => negb (mem c (columns df))) labels) as [c |] eqn:Hf.
  - apply find_some in Hf. destruct Hf as [Hin Hc].
    apply negb_true_iff in Hc. apply H, mem_In in Hin. congruence.
  - eexists. reflexivity.
Qed.

Lemma merged_columns_left (lcols rcols : list string) (c : string) :
  In c lcols -> ~ In c rcols -> In c (merged_columns lcols rcols).
Proof.
  intros Hl Hr. unfold merged_columns. apply in_or_app. left.
  apply in_map_iff. exists c. split; [| exact Hl].
  destruct (mem c rcols) eqn:Hm; [| reflexivity].
  apply mem_In in Hm. contradiction.
Qed.

Lemma merged_columns_right (lcols rcols : list string) (c : string) :
  In c rcols -> ~ In c lcols -> In c (merged_columns lcols rcols).
Proof.
  intros Hr Hl. unfold merged_columns. apply in_or_app. right.
  apply in_map_iff. exists c. split; [| exact Hr].
  destruct (mem c lcols) eqn:Hm; [| reflexivity].
  apply mem_In in Hm. contradiction.
Qed.

Lemma joined_for_nonempty (recs : list CountyRecord.t) (g : Geometry.t) :
  joined_for recs g <> [].
Proof.
  unfold joined_for. destruct (matches (county_key g) recs); discriminate.
Qed.

Lemma joined_nonempty (recs : list CountyRecord.t) (geos : list Geometry.t) :
  geos <> [] -> joined recs geos <> [].
Proof.
  destruct geos as [| g geos]; [congruence |]. intros _. unfold joined. simpl.
  pose proof (joined_for_nonempty recs g) as H.
  destruct (joined_for recs g); [congruence | discriminate].
Qed.

Lemma deaths_by_county_try_total sm cd data state code :
  resolve sm state = Some (code, state) ->
  (forall c, In c county_required -> In c (columns data)) ->
  (forall c, In c county_reserved -> ~ In c (columns data)) ->
  region_geometry cd code <> [] ->
  keys_mergeable data code ->
  exists hi,
    deaths_by_county_try sm cd data state
    = inr (figure_of state
             (joined (region_records data code) (region_geometry cd code)) hi).
Proof.
  intros Hres Hreq Hrsv Hgeo Hmerge.
  destruct (pymax_total
              (map rate_of (joined (region_records data code) (region_geometry cd code))))
    as [hi Hhi].
  { intros E. apply map_eq_nil in E. revert E. apply joined_nonempty, Hgeo. }
  exists hi. unfold deaths_by_county_try.
  unfold resolve in Hres. rewrite Hres. cbn [unpack bind ret].
  rewrite (getitem_ok data "state_name").
  2:{ apply Hreq. simpl. auto. }
  cbn [bind].
  set (df_state := getitem_bool data _).
  destruct (drop_columns_ok ["data_as_of"; "start_week"; "end_week"] df_state) as [d Hd].
  { intros c Hc. apply Hreq. simpl in *. intuition. }
  rewrite Hd. cbn [bind].
  fold (region_geometry cd code).
  assert (DataFrame_of_dicts (region_geometry cd code)
          = read_json Geometry.keys (region_geometry cd code)) as ->.
  { destruct (region_geometry cd code); [congruence | reflexivity]. }
  rewrite (getitem_ok _ "detailed name").
  2:{ simpl. auto. }
  cbn [bind]. rewrite records_read_json.
  set (county_df := mkDataFrame _ _).
  assert (records county_df
          = map (fun g => (g, county_key g)) (region_geometry cd code)) as Hright.
  { unfold county_df. rewrite records_mk, map_snd_combine.
    - rewrite map_map. apply combine_map_self.
    - unfold index_of, read_json. simpl.
      repeat rewrite ?length_map, ?length_combine, ?length_seq. lia. }
  assert (records df_state = region_records data code) as Hleft.
  { unfold df_state. apply records_getitem_bool. }
  unfold merge_right.
  assert (mem "county_name" (columns df_state) = true) as ->.
  { apply mem_In. simpl. apply Hreq. simpl. auto 10. }
  assert (mem "county_key" (columns county_df) = true) as -> by reflexivity.
  assert (nonempty (rows county_df) = true) as Hrows.
  { destruct (rows county_df) eqn:E; [| reflexivity].
    exfalso. apply Hgeo. apply (f_equal (map snd)) in E.
    change (map snd (rows county_df)) with (records county_df) in E.
    rewrite Hright in E. apply map_eq_nil in E. exact E. }
  assert (Bool.eqb (nonempty (rows df_state)) (nonempty (rows county_df))
          && negb (object_dtype (map CountyRecord.county_name (records data))) = false)
    as ->.
  { rewrite Hrows. destruct Hmerge as [Hnil | Htext].
    - rewrite <- Hleft in Hnil. unfold records in Hnil. apply map_eq_nil in Hnil.
      rewrite Hnil. reflexivity.
    - assert (object_dtype (map CountyRecord.county_name (records data)) = true) as ->
        by (apply object_dtype_true; right; exact Htext).
      apply andb_false_r. }
  cbn [negb bind ret].
  set (df_merged := read_json _ _).
  assert (records df_merged
          = joined (region_records data code) (region_geometry cd code)) as Hj.
  { unfold df_merged. rewrite records_read_json, Hright, Hleft, flat_map_map.
    reflexivity. }
  assert (columns df_merged
          = merged_columns (columns data) (Geometry.keys ++ ["county_key"])%list) as Hcols
    by reflexivity.
  rewrite (getattr_ok df_merged "covid_death").
  2:{ rewrite Hcols. apply merged_columns_left; [apply Hreq; simpl; auto 10 |].
      simpl. intuition discriminate. }
  cbn [bind].
  rewrite (getattr_ok df_merged "lons").
  2:{ rewrite Hcols. apply merged_columns_right; [simpl; auto 10 |].
      apply Hrsv. simpl. auto. }
  cbn [bind].
  rewrite (getattr_ok df_merged "lats").
  2:{ rewrite Hcols. apply merged_columns_right; [simpl; auto 10 |].
      apply Hrsv. simpl. auto. }
  cbn [bind].
  rewrite (getattr_ok df_merged "name").
  2:{ rewrite Hcols. apply merged_columns_right; [simpl; auto 10 |].
      apply Hrsv. simpl. auto. }
  cbn [bind].
  rewrite Hj, !map_map. fold rate_of.
  change (map (fun x => inject_Z (float64_of_int (fillna 0 (Merged.covid_death x)))))
    with (map rate_of).
  rewrite Hhi. reflexivity.
Qed.

Lemma deaths_by_county_Plot sm cd data state p :
  deaths_by_county sm cd data state = Plot p ->
  deaths_by_county_try sm cd data state = inr p.
Proof.
  unfold deaths_by_county.
  destruct (deaths_by_county_try sm cd data state); [discriminate |].
  intros H. inversion H. reflexivity.
Qed.

Lemma resolve_none (sm : list (string * string)) (state : string) :
  (forall code name, In (code, name) sm -> name <> state) -> resolve sm state = None.
Proof.
  intros H. unfold resolve.
  destruct (filter (fun cn => String.eqb (snd cn) state) sm) as [| [k v] l] eqn:Hf;
    [reflexivity |].
  assert (In (k, v) (filter (fun cn => String.eqb (snd cn) state) sm)) as Hin
    by (rewrite Hf; left; reflexivity).
  apply filter_In in Hin. destruct Hin as [Hin E]. simpl in E.
  apply String.eqb_eq in E. exfalso. apply (H k v Hin E).
Qed.

Lemma combine_map_pair {A B C} (f : A -> B) (g : A -> C) (l : list A) :
  combine (map f l) (map g l) = map (fun a => (f a, g a)) l.
Proof. induction l as [| a l IH]; simpl; [reflexivity | rewrite IH; reflexivity]. Qed.

Lemma entries_figure_of (state : string) (rws : list Merged.t) (hi : Q) :
  entries (source (figure_of state rws hi))
  = map (fun m => entry_of (Merged.right m) (rate_of m)) rws.
Proof.
  unfold entries, figure_of. simpl.
  rewrite combine_map_pair.
  rewrite (combine_map_pair
             (fun m => (Geometry.lons (Merged.right m), Geometry.lats (Merged.right m)))).
  rewrite (combine_map_pair
             (fun m => (Geometry.lons (Merged.right m), Geometry.lats (Merged.right m),
                        Geometry.name (Merged.right m)))).
  reflexivity.
Qed.

Lemma matches_nil (recs : list CountyRecord.t) (g : Geometry.t) :
  unmatched recs g -> matches (county_key g) recs = [].
Proof.
  unfold unmatched, matches. induction recs as [| r recs IH]; intros H; simpl;
    [reflexivity |].
  destruct (cell_eqb (county_key g) (CountyRecord.county_name r)) eqn:E.
  - exfalso. apply (H r); [left; reflexivity |].
    unfold cell_eqb in E. destruct (CountyRecord.county_name r); [| discriminate].
    apply String.eqb_eq in E. congruence.
  - apply IH. intros r' Hr'. apply H. right. exact Hr'.
Qed.

Lemma joined_for_right (recs : list CountyRecord.t) (g : Geometry.t) (m : Merged.t) :
  In m (joined_for recs g) -> Merged.right m = g.
Proof.
  unfold joined_for. destruct (matches (county_key g) recs) as [| r ms].
  - intros [<- | []]. reflexivity.
  - intros H. apply in_map_iff in H. destruct H as (r' & <- & _). reflexivity.
Qed.

Lemma joined_for_length (recs : list CountyRecord.t) (g : Geometry.t) :
  List.length (joined_for recs g)
  = Nat.max 1 (List.length (matches (county_key g) recs)).
Proof.
  unfold joined_for. destruct (matches (county_key g) recs) as [| r ms];
    [reflexivity |].
  rewrite length_map. simpl. reflexivity.
Qed.

Lemma joined_length (recs : list CountyRecord.t) (geos : list Geometry.t) :
  List.length (joined recs geos) = join_size recs geos.
Proof.
  unfold joined, join_size, list_sum. induction geos as [| g geos IH]; cbn -[Nat.max];
    [reflexivity |].
  rewrite length_app, IH, joined_for_length. reflexivity.
Qed.

Lemma join_size_bounds (recs : list CountyRecord.t) (geos : list Geometry.t) :
  (List.length geos <= join_size recs geos)%nat /\
  ((forall g, In g geos -> (List.length (matches (county_key g) recs) <= 1)%nat) ->
   join_size recs geos = List.length geos).
Proof.
  unfold join_size, list_sum. induction geos as [| g geos [IH1 IH2]]; cbn -[Nat.max].
  - split; [lia | reflexivity].
  - split; [lia |]. intros H.
    rewrite IH2 by (intros g' Hg'; apply H; right; exact Hg').
    specialize (H g (or_introl eq_refl)). lia.
Qed.

(** A returned plot always has rates: the geometry of the region is not
    empty, or building [county_df] would have failed. *)
Lemma plot_rates_nonempty sm cd (data : DataFrame CountyRecord.t) (state : string) p :
  deaths_by_county sm cd data state = Plot p -> Source.rate (source p) <> [].
Proof.
  intros H. apply deaths_by_county_Plot, deaths_by_county_try_inr in H.
  destruct H as (code & hi & _ & _ & _ & _ & Hhi & ->). simpl.
  intros E. rewrite E in Hhi. discriminate.
Qed.



Lemma joined_right_in_order (recs : list CountyRecord.t) (geos : list Geometry.t) :
  (forall g, In g geos -> (List.length (matches (county_key g) recs) <= 1)%nat) ->
  map Merged.right (joined recs geos) = geos.
Proof.
  unfold joined. induction geos as [| g geos IH]; intros H; simpl; [reflexivity |].
  rewrite map_app, IH by (intros g' Hg'; apply H; right; exact Hg').
  specialize (H g (or_introl eq_refl)). unfold joined_for.
  destruct (matches (county_key g) recs) as [| r [| r' ms]]; simpl in *;
    [reflexivity | reflexivity | lia].
Qed.

(** C3.  In the plot [deaths_by_county] returns, every geometry entry of
    the resolved region has an output entry with its coordinates and name,
    and an entry with rate 0.0 when no mortality record of the region bears
    its county name; where no county has two mortality records the entries
    are the geometry entries in their order.  With three geometry entries,
    one mortality record of count 5 for the first and none for the other
    two, the rates are [5.0; 0.0; 0.0], the low end of the scale (the
    median) is 0.0 and the high end (the maximum) is 5.0. *)
Theorem unmatched_counties_rate_zero sm cd (data : DataFrame CountyRecord.t)
    (state : string) p :
  deaths_by_county sm cd data state = Plot p ->
  exists code,
    resolve sm state = Some (code, state) /\
    (forall g, In g (region_geometry cd code) ->
       exists rate, In (entry_of g rate) (entries (source p))) /\
    (forall g, In g (region_geometry cd code) ->
       unmatched (region_records data code) g ->
       In (entry_of g 0%Q) (entries (source p))) /\
    ((forall g, In g (region_geometry cd code) ->
        (List.length (matches (county_key g) (region_records data code)) <= 1)%nat) ->
     Source.name (source p) = map Geometry.name (region_geometry cd code) /\
     Source.x (source p) = map Geometry.lons (region_geometry cd code) /\
     Source.y (source p) = map Geometry.lats (region_geometry cd code)) /\
    (forall g1 g2 g3 r,
       region_geometry cd code = [g1; g2; g3] ->
       matches (county_key g1) (region_records data code) = [r] ->
       CountyRecord.covid_death r = Some 5%Z ->
       unmatched (region_records data code) g2 ->
       unmatched (region_records data code) g3 ->
       Source.rate (source p) = [5; 0; 0]%Q /\
       Source.name (source p) = [Geometry.name g1; Geometry.name g2; Geometry.name g3] /\
       low (color_mapper p) = Some 0%Q /\
       high (color_mapper p) = 5%Q).
Proof.
  intros H. apply deaths_by_county_Plot, deaths_by_county_try_inr in H.
  destruct H as (code & hi & Hres & _ & _ & _ & Hhi & ->).
  exists code. split; [exact Hres |].
  rewrite entries_figure_of.
  set (recs := region_records data code) in *.
  split; [| split; [| split]].
  - intros g Hg.
    pose proof (joined_for_nonempty recs g) as Hne.
    destruct (joined_for recs g) as [| m ms] eqn:Hj; [congruence |].
    assert (In m (joined_for recs g)) as Hm by (rewrite Hj; left; reflexivity).
    exists (rate_of m). apply in_map_iff. exists m. split.
    + rewrite (joined_for_right recs g m Hm). reflexivity.
    + unfold joined. apply in_flat_map. exists g. split; assumption.
  - intros g Hg Hun. apply in_map_iff.
    exists (Merged.mk None g (county_key g)). split; [reflexivity |].
    unfold joined. apply in_flat_map. exists g. split; [exact Hg |].
    unfold joined_for. rewrite (matches_nil recs g Hun). left. reflexivity.
  - intros Hone. apply joined_right_in_order in Hone.
    unfold figure_of. simpl.
    rewrite <- (map_map Merged.right Geometry.name),
            <- (map_map Merged.right Geometry.lons),
            <- (map_map Merged.right Geometry.lats), Hone.
    repeat split.
  - intros g1 g2 g3 r Hgeo Hm1 Hc Hu2 Hu3.
    rewrite Hgeo in *. unfold joined, joined_for in *. simpl flat_map in *.
    rewrite Hm1, (matches_nil recs g2 Hu2), (matches_nil recs g3 Hu3) in *.
    simpl in *. unfold rate_of, Merged.covid_death in *. simpl in *.
    rewrite Hc in *. simpl in *.
    split; [reflexivity |]. split; [reflexivity |]. split; [reflexivity |].
    vm_compute in Hhi. inversion Hhi. reflexivity.
Qed.

Lemma unmatched_counties_rate_zero_witness :
  exists p,
    deaths_by_county Sample.state_mapping Sample.county_data Sample.mortality "New York"
    = Plot p /\
    region_geometry Sample.county_data "NY" = [Sample.albany; Sample.bronx; Sample.kings] /\
    Source.rate (source p) = [5; 0; 0]%Q /\
    low (color_mapper p) = Some 0%Q /\
    high (color_mapper p) = 5%Q.
Proof.
  eexists. split; [vm_compute; reflexivity |]. split; [reflexivity |].
  destruct (unmatched_counties_rate_zero Sample.state_mapping Sample.county_data
              Sample.mortality "New York" _ ltac:(vm_compute; reflexivity))
    as (code & Hres & _ & _ & _ & H).
  assert (code = "NY") as -> by (vm_compute in Hres; congruence).
  destruct (H Sample.albany Sample.bronx Sample.kings
              (Sample.county_row "NY" "Albany County" 5))
    as (Hr & _ & Hlo & Hhi); try reflexivity.
  - intros r [<- | []]. discriminate.
  - intros r [<- | []]. discriminate.
  - split; [exact Hr |]. split; [exact Hlo | exact Hhi].
Defined.

(** C4, as stated, fails: with two mortality records for one county the
    join emits that county twice, so the three geometry entries of the
    region give four output entries. *)
Lemma sequences_longer_than_geometry :
  exists p,
    deaths_by_county Sample.state_mapping Sample.county_data Sample.mortality_twice
      "New York" = Plot p /\
    resolve Sample.state_mapping "New York" = Some ("NY", "New York") /\
    List.length (region_geometry Sample.county_data "NY") = 3%nat /\
    List.length (Source.rate (source p)) = 4%nat /\
    Source.name (source p) = ["Albany"; "Albany"; "Bronx"; "Kings"].
Proof.
  eexists. split; [vm_compute; reflexivity |]. repeat split.
Qed.

(** C4, amended.  The four output sequences of a returned plot have one
    common length: a geometry entry of the resolved region counts once for
    each mortality record of the region with its county name, and once if
    there is none.  That is never less than the number of geometry entries,
    and equal to it when no county has more than one mortality record. *)
Theorem output_sequences_same_length sm cd (data : DataFrame CountyRecord.t)
    (state : string) p :
  deaths_by_county sm cd data state = Plot p ->
  exists code,
    resolve sm state = Some (code, state) /\
    let recs := region_records data code in
    let geos := region_geometry cd code in
    List.length (Source.x (source p)) = join_size recs geos /\
    List.length (Source.y (source p)) = join_size recs geos /\
    List.length (Source.name (source p)) = join_size recs geos /\
    List.length (Source.rate (source p)) = join_size recs geos /\
    (List.length geos <= join_size recs geos)%nat /\
    ((forall g, In g geos ->
        (List.length (matches (county_key g) recs) <= 1)%nat) ->
     join_size recs geos = List.length geos).
Proof.
  intros H. apply deaths_by_county_Plot, deaths_by_county_try_inr in H.
  destruct H as (code & hi & Hres & _ & _ & _ & _ & ->).
  exists code. split; [exact Hres |]. intros recs geos.
  unfold figure_of. simpl. rewrite !length_map, joined_length.
  repeat (split; [reflexivity |]). apply join_size_bounds.
Qed.

Lemma output_sequences_same_length_witness :
  exists p,
    deaths_by_county Sample.state_mapping Sample.county_data Sample.mortality
      "New York" = Plot p /\
    List.length (Source.x (source p)) = 3%nat /\
    List.length (Source.rate (source p))
    = join_size (region_records Sample.mortality "NY")
        (region_geometry Sample.county_data "NY").
Proof.
  eexists. split; [vm_compute; reflexivity |]. split; [reflexivity |].
  destruct (output_sequences_same_length Sample.state_mapping Sample.county_data
              Sample.mortality "New York" _ ltac:(vm_compute; reflexivity))
    as (code & Hres & H).
  assert (code = "NY") as -> by (vm_compute in Hres; congruence).
  destruct H as (_ & _ & _ & Hrate & _). exact Hrate.
Defined.

(** C10.  Whatever makes the [try] block of [deaths_by_county] fail (no
    code for the name, a column the function reads missing from the
    dataset or hidden by one of the geometry labels, no geometry and so no
    rates for the code, or any other exception), the function returns the
    same value, the pair [(None, None)], and that value is never a plot. *)
Theorem failure_is_uniform sm cd (data : DataFrame CountyRecord.t) (state : string) :
  failure_cause sm cd data state \/
  (exists e, deaths_by_county_try sm cd data state = inl e) ->
  deaths_by_county sm cd data state = NoneNone /\
  forall p, deaths_by_county sm cd data state <> Plot p.
Proof.
  intros H.
  assert (deaths_by_county sm cd data state = NoneNone) as Hn.
  { unfold deaths_by_county.
    destruct (deaths_by_county_try sm cd data state) as [e | p] eqn:Htry;
      [reflexivity |].
    exfalso. apply deaths_by_county_try_inr_keys in Htry.
    destruct Htry as (code & hi & Hres & Hreq & Hrsv & Hgeo & Hmerge & _).
    destruct H as [[Hnone | c Hc Hno | c Hc Hin | code' Hres' Hnil
                    | code' Hres' Hrec Hnum] | (e & He)].
    - congruence.
    - apply Hno, Hreq, Hc.
    - apply (Hrsv c Hc Hin).
    - rewrite Hres in Hres'. inversion Hres'; subst code'. contradiction.
    - rewrite Hres in Hres'. inversion Hres'; subst code'.
      destruct Hmerge as [Hnil | (r & Hr & Hne)]; [contradiction |].
      apply Hne, Hnum, Hr.
    - discriminate. }
  split; [exact Hn |]. intros p. rewrite Hn. discriminate.
Qed.

Lemma failure_is_uniform_witness :
  failure_cause Sample.state_mapping Sample.county_data Sample.mortality_no_count
    "New York" /\
  deaths_by_county Sample.state_mapping Sample.county_data Sample.mortality_no_count
    "New York" = NoneNone.
Proof.
  assert (failure_cause Sample.state_mapping Sample.county_data
            Sample.mortality_no_count "New York") as H.
  { apply (missing_column _ _ _ _ "covid_death").
    - simpl. auto 10.
    - simpl. intros Hin.
      repeat (destruct Hin as [E | Hin]; [discriminate |]). contradiction. }
  split; [exact H |].
  apply (failure_is_uniform Sample.state_mapping Sample.county_data
           Sample.mortality_no_count "New York" (or_introl H)).
Defined.

Lemma keys_mergeable_dec (data : DataFrame CountyRecord.t) (code : string) :
  keys_mergeable data code \/
  (region_records data code <> [] /\
   forall r, In r (records data) -> CountyRecord.county_name r = None).
Proof.
  unfold keys_mergeable.
  destruct (region_records data code) as [| r0 l]; [left; left; reflexivity |].
  destruct (existsb (fun r => is_text (CountyRecord.county_name r)) (records data))
    eqn:E.
  - left. right. apply existsb_exists in E. destruct E as (r & Hr & Ht).
    exists r. split; [exact Hr |]. destruct (CountyRecord.county_name r); discriminate.
  - right. split; [discriminate |]. intros r Hr.
    destruct (CountyRecord.county_name r) as [t |] eqn:Hn; [| reflexivity].
    assert (existsb (fun r => is_text (CountyRecord.county_name r)) (records data)
            = true) as E'; [| congruence].
    apply existsb_exists. exists r. split; [exact Hr |]. rewrite Hn. reflexivity.
Qed.

(** In the other direction: a call that returns the pair has one of the
    listed causes, so a call with none of them returns a plot. *)
Lemma none_pair_has_cause sm cd (data : DataFrame CountyRecord.t) (state : string) :
  deaths_by_county sm cd data state = NoneNone ->
  failure_cause sm cd data state.
Proof.
  intros Hn.
  destruct (resolve sm state) as [[code name] |] eqn:Hres;
    [| apply region_not_found; exact Hres].
  assert (name = state) as ->.
  { unfold resolve in Hres.
    destruct (filter (fun cn => String.eqb (snd cn) state) sm) as [| [k v] l] eqn:Hf;
      [discriminate |].
    simpl in Hres. inversion Hres; subst k v.
    assert (In (code, name) (filter (fun cn => String.eqb (snd cn) state) sm)) as Hin
      by (rewrite Hf; left; reflexivity).
    apply filter_In in Hin. destruct Hin as [_ E]. apply String.eqb_eq in E. exact E. }
  destruct (Forall_Exists_dec (fun c => In c (columns data))
              (fun c => in_dec string_dec c (columns data)) county_required)
    as [Hreq | Hmiss].
  2:{ apply Exists_exists in Hmiss. destruct Hmiss as (c & Hc & Hno).
      apply (missing_column _ _ _ _ c Hc Hno). }
  destruct (Forall_Exists_dec (fun c => ~ In c (columns data))
              (fun c => match in_dec string_dec c (columns data) with
                        | left H => right (fun N => N H)
                        | right H => left H
                        end) county_reserved)
    as [Hrsv | Hhid].
  2:{ apply Exists_exists in Hhid. destruct Hhid as (c & Hc & Hin).
      apply (hidden_column _ _ _ _ c Hc).
      destruct (in_dec string_dec c (columns data)); [assumption | contradiction]. }
  destruct (region_geometry cd code) as [| g geos] eqn:Hgeo;
    [apply (empty_rate_series _ _ _ _ code Hres Hgeo) |].
  destruct (keys_mergeable_dec data code) as [Hmerge | (Hrec & Hnum)];
    [| apply (numeric_join_key _ _ _ _ code Hres Hrec Hnum)].
  exfalso. rewrite Forall_forall in Hreq, Hrsv.
  destruct (deaths_by_county_try_total sm cd data state code Hres Hreq Hrsv) as [hi Hhi].
  { rewrite Hgeo. discriminate. }
  { exact Hmerge. }
  unfold deaths_by_county in Hn. rewrite Hhi in Hn. discriminate.
Qed.


(** * Further properties of the code *)

(** ** The rollup filter of [index] *)

Lemma drop_totals_ok (sd : DataFrame StateRecord.t) :
  In "state" (columns sd) ->
  (forall r, In r (records sd) -> StateRecord.state r <> None) ->
  drop_totals sd
  = inr (drop (map fst (filter (fun ir => is_total (snd ir)) (rows sd))) sd).
Proof.
  intros Hc Hsome. unfold drop_totals.
  rewrite (getitem_ok sd "state" StateRecord.state Hc). cbn [bind].
  assert (existsb is_none (map StateRecord.state (records sd)) = false) as Hn.
  { apply not_true_is_false. intros H. apply existsb_exists in H.
    destruct H as (o & Ho & E). apply in_map_iff in Ho.
    destruct Ho as (r & <- & Hr). apply (Hsome r Hr).
    destruct (StateRecord.state r); [discriminate | reflexivity]. }
  assert (str_contains "Total" (map StateRecord.state (records sd))
          = inr (map (option_map (contains "Total"))
                     (map StateRecord.state (records sd)))) as ->.
  { unfold str_contains.
    destruct (map StateRecord.state (records sd)) as [| c col] eqn:E; [reflexivity |].
    destruct c as [s |]; [reflexivity | discriminate]. }
  cbn [bind]. unfold getitem_mask. rewrite no_none_mask, Hn. unfold ret. cbn [bind].
  f_equal. f_equal. unfold index_of, getitem_bool, records. simpl. f_equal.
  rewrite map_map, map_map, select_map_snd.
  apply filter_ext. intros [i r]. unfold is_total. simpl.
  destruct (StateRecord.state r); reflexivity.
Qed.

Lemma filter_nil_all {A} (f : A -> bool) (l : list A) :
  (forall a, In a l -> f a = false) -> filter f l = [].
Proof.
  induction l as [| a l IH]; intros H; simpl; [reflexivity |].
  rewrite (H a (or_introl eq_refl)). apply IH. intros b Hb. apply H. right. exact Hb.
Qed.

Lemma drop_survivors_not_total (sd : DataFrame StateRecord.t) :
  filter (fun ir => is_total (snd ir))
    (rows (drop (map fst (filter (fun ir => is_total (snd ir)) (rows sd))) sd)) = [].
Proof.
  unfold drop. simpl. rewrite (filter_filter _ _ (rows sd)).
  apply filter_nil_all. intros [i r] Hin. simpl.
  destruct (is_total r) eqn:Ht; [| apply andb_false_r].
  rewrite andb_true_r. apply negb_false_iff, existsb_exists.
  exists i. split; [| apply Nat.eqb_refl].
  apply in_map_iff. exists (i, r). split; [reflexivity |].
  apply filter_In. split; [exact Hin | exact Ht].
Qed.

(** X1.  The rollup filter succeeds exactly on a dataset that has the
    region column with text in every cell of it.  With the column present
    and a cell missing it raises [ValueError] (the mask holds NaN) or, when
    no cell holds text, [AttributeError] (no [.str] accessor): never a
    dataset with some rows passed through. *)
Theorem drop_totals_succeeds_iff (sd : DataFrame StateRecord.t) :
  ((exists sd', drop_totals sd = inr sd') <->
   In "state" (columns sd) /\
   forall r, In r (records sd) -> StateRecord.state r <> None) /\
  (In "state" (columns sd) ->
   (exists r, In r (records sd) /\ StateRecord.state r = None) ->
   drop_totals sd = inl ValueError \/ drop_totals sd = inl (AttributeError "str")).
Proof.
  split; [split |].
  - intros (sd' & H). apply drop_totals_inr in H. destruct H as (Hc & Hsome & _).
    split; [apply mem_In, Hc |]. intros r Hr E.
    destruct (Hsome r Hr) as (s & Hs). congruence.
  - intros [Hc Hsome]. eexists. apply drop_totals_ok; assumption.
  - intros Hc (r & Hr & Hnone). unfold drop_totals.
    rewrite (getitem_ok sd "state" StateRecord.state Hc). cbn [bind].
    assert (In None (map StateRecord.state (records sd))) as Hin.
    { rewrite <- Hnone. apply in_map, Hr. }
    unfold str_contains.
    destruct (map StateRecord.state (records sd)) as [| c col] eqn:E; [contradiction |].
    destruct (forallb is_none (c :: col)); [right; reflexivity |].
    left. unfold ret. cbn [bind]. unfold getitem_mask. rewrite no_none_mask.
    assert (existsb is_none (c :: col) = true) as ->; [| reflexivity].
    apply existsb_exists. exists None. split; [exact Hin | reflexivity].
Qed.

(** X2.  Filtering a filtered dataset changes nothing: the rollup filter
    succeeds again on its own output and returns it as it is. *)
Theorem drop_totals_idempotent (sd sd' : DataFrame StateRecord.t) :
  drop_totals sd = inr sd' -> drop_totals sd' = inr sd'.
Proof.
  intros H. apply drop_totals_inr in H. destruct H as (Hc & Hsome & ->).
  set (offset := map fst (filter (fun ir => is_total (snd ir)) (rows sd))).
  rewrite drop_totals_ok.
  - unfold offset. rewrite drop_survivors_not_total. f_equal.
    unfold drop. simpl. f_equal.
    apply forallb_filter_id, forallb_forall. reflexivity.
  - simpl. apply mem_In, Hc.
  - intros r Hr E. unfold records, drop in Hr. simpl in Hr.
    apply in_map_iff in Hr. destruct Hr as (ir & <- & Hir).
    apply filter_In in Hir. destruct Hir as [Hir _].
    destruct (Hsome (snd ir)) as (s & Hs); [apply in_map, Hir | congruence].
Qed.

Lemma drop_totals_idempotent_witness :
  exists sd',
    drop_totals Sample.state_data = inr sd' /\
    List.length (rows sd') = 5%nat /\
    drop_totals sd' = inr sd'.
Proof.
  eexists. split; [vm_compute; reflexivity |]. split; [reflexivity |].
  apply (drop_totals_idempotent Sample.state_data). vm_compute. reflexivity.
Defined.

Lemma index_of_read_json {R} (cols : list string) (recs : list R) :
  index_of (read_json cols recs) = seq 0 (List.length recs).
Proof.
  unfold index_of, read_json. simpl.
  generalize 0%nat. induction recs as [| r recs IH]; intros n; simpl;
    [reflexivity | rewrite IH; reflexivity].
Qed.

(** X3.  On a dataset as [read_json] builds it, with the region column and
    text in every region cell, the rollup filter succeeds and returns
    exactly the records without "Total" in their region name, in order,
    under the same column labels. *)
Theorem drop_totals_read_json (cols : list string) (recs : list StateRecord.t) :
  In "state" cols ->
  (forall r, In r recs -> StateRecord.state r <> None) ->
  exists sd',
    drop_totals (read_json cols recs) = inr sd' /\
    columns sd' = cols /\
    records sd' = filter (fun r => negb (is_total r)) recs /\
    forall r, In r (records sd') <->
              In r recs /\ exists s, StateRecord.state r = Some s /\ ~ Substring "Total" s.
Proof.
  intros Hc Hsome.
  assert (records (drop (map fst (filter (fun ir => is_total (snd ir))
                                        (rows (read_json cols recs))))
                        (read_json cols recs))
          = filter (fun r => negb (is_total r)) recs) as Hrec.
  { assert (rows (drop (map fst (filter (fun ir => is_total (snd ir))
                                        (rows (read_json cols recs))))
                        (read_json cols recs))
            = filter (fun ir => negb (is_total (snd ir))) (rows (read_json cols recs)))
      as Hrows.
    { rewrite <- (drop_keeps_unlisted (fun r => negb (is_total r))).
      - do 3 f_equal. apply filter_ext. intros ir. rewrite negb_involutive. reflexivity.
      - rewrite index_of_read_json. apply seq_NoDup. }
    unfold records at 1. rewrite Hrows.
    rewrite (map_snd_filter (fun r => negb (is_total r))).
    fold (records (read_json cols recs)). rewrite records_read_json. reflexivity. }
  eexists. split; [| split; [| split]].
  - apply drop_totals_ok; [exact Hc |]. rewrite records_read_json. exact Hsome.
  - reflexivity.
  - exact Hrec.
  - intros r. rewrite Hrec, filter_In, negb_true_iff. unfold is_total.
    split.
    + intros [Hr Ht]. split; [exact Hr |].
      destruct (StateRecord.state r) as [s |] eqn:Hs; [| exfalso; apply (Hsome r Hr Hs)].
      exists s. split; [reflexivity |]. intros Hsub. apply contains_spec in Hsub. congruence.
    + intros [Hr (s & Hs & Hno)]. split; [exact Hr |]. rewrite Hs.
      apply not_true_is_false. intros Ht. apply Hno, contains_spec, Ht.
Qed.

Lemma drop_totals_read_json_witness :
  exists sd',
    drop_totals Sample.state_data = inr sd' /\
    map StateRecord.state (records sd')
    = [Some "New York"; Some "New York City"; Some "District of Columbia";
       Some "New York"; Some "New York"].
Proof.
  destruct (drop_totals_read_json Sample.state_columns
              [Sample.state_row "United States Total" "All ages" 500;
               Sample.state_row "New York" "Under 1 year" 2;
               Sample.state_row "New York City" "25-34 years" 7;
               Sample.state_row "District of Columbia" "25-34 years" 4;
               Sample.state_row "New York" "25-34 years" 10;
               Sample.state_row "New York" "Under 1 year" 1])
    as (sd' & Hd & _ & Hrec & _).
  - simpl. auto 10.
  - intros r Hr. simpl in Hr.
    repeat (destruct Hr as [<- | Hr]; [discriminate |]). contradiction.
  - exists sd'. split; [exact Hd |]. rewrite Hrec. reflexivity.
Defined.

(** ** [age_by_state] *)

Lemma age_by_state_inr (data : DataFrame StateRecord.t) (state : string) plot df_age :
  age_by_state data state = inr (plot, df_age) ->
  (forall c, In c age_required -> In c (columns data)) /\
  x_range plot = unique cell_eq (map StateRecord.age_group (cohort_records data state)) /\
  df_age = cohort_table (cohort_records data state).
Proof.
  rewrite age_by_state_eq.
  destruct (mem "state" (columns data)) eqn:Hs; [| discriminate].
  destruct (mem "age_group" (columns data)) eqn:Ha; [| discriminate].
  destruct (find (fun c => negb (mem c (columns data))) STATE_FIGURES) eqn:Hf;
    [discriminate |].
  cbv zeta. intros H. inversion H; subst. split; [| split; reflexivity].
  intros c [<- | [<- | Hc]]; [apply mem_In, Hs | apply mem_In, Ha |].
  apply (find_none_all _ _ Hf c Hc).
Qed.

Lemma find_absent_none (cols labels : list string) :
  (forall c, In c labels -> In c cols) ->
  find (fun c => negb (mem c cols)) labels = None.
Proof.
  intros H. induction labels as [| c labels IH]; simpl; [reflexivity |].
  assert (mem c cols = true) as -> by (apply mem_In, H; left; reflexivity).
  simpl. apply IH. intros d Hd. apply H. right. exact Hd.
Qed.

Lemma age_by_state_ok (data : DataFrame StateRecord.t) (state : string) :
  (forall c, In c age_required -> In c (columns data)) ->
  age_by_state data state
  = inr (mkStatePlot
           (unique cell_eq (map StateRecord.age_group (cohort_records data state)))
           (String.append "Deaths x Age - " state)
           (cohort_table (cohort_records data state)),
         cohort_table (cohort_records data state)).
Proof.
  intros H. rewrite age_by_state_eq.
  assert (mem "state" (columns data) = true) as ->
    by (apply mem_In, H; left; reflexivity).
  assert (mem "age_group" (columns data) = true) as ->
    by (apply mem_In, H; right; left; reflexivity).
  rewrite find_absent_none; [reflexivity |].
  intros c Hc. apply H. right. right. exact Hc.
Qed.

(** X4.  [age_by_state] returns a result exactly when the dataset has the
    eight columns it reads, whatever the records and the region; otherwise
    it raises [KeyError] for a column that is missing. *)
Theorem age_by_state_succeeds_iff (data : DataFrame StateRecord.t) (state : string) :
  ((exists r, age_by_state data state = inr r) <->
   forall c, In c age_required -> In c (columns data)) /\
  forall e, age_by_state data state = inl e ->
            exists c, e = KeyError c /\ In c age_required /\ ~ In c (columns data).
Proof.
  split; [split |].
  - intros ([plot df_age] & H). apply age_by_state_inr in H. apply H.
  - intros H. eexists. apply age_by_state_ok, H.
  - intros e. rewrite age_by_state_eq.
    destruct (mem "state" (columns data)) eqn:Hs.
    2:{ intros H. inversion H. exists "state". split; [reflexivity |].
        split; [left; reflexivity |]. intros Hin. apply mem_In in Hin. congruence. }
    destruct (mem "age_group" (columns data)) eqn:Ha.
    2:{ intros H. inversion H. exists "age_group". split; [reflexivity |].
        split; [right; left; reflexivity |]. intros Hin. apply mem_In in Hin. congruence. }
    destruct (find (fun c => negb (mem c (columns data))) STATE_FIGURES) as [c |] eqn:Hf;
      [| discriminate].
    intros H. inversion H. exists c. split; [reflexivity |].
    apply find_some in Hf. destruct Hf as [Hc Hm]. apply negb_true_iff in Hm.
    split; [right; right; exact Hc |]. intros Hin. apply mem_In in Hin. congruence.
Qed.

Lemma cohort_records_In (data : DataFrame StateRecord.t) (state : string) r :
  In r (cohort_records data state) <->
  In r (records data) /\ StateRecord.state r = Some state /\
  exists a, StateRecord.age_group r = Some a /\ In a AGE_GROUPS.
Proof.
  unfold cohort_records. rewrite !filter_In. unfold cell_eqb, isin. split.
  - intros [[Hr Hs] Ha].
    destruct (StateRecord.state r) as [t |]; [| discriminate].
    apply String.eqb_eq in Hs. subst t.
    destruct (StateRecord.age_group r) as [a |]; [| discriminate].
    apply mem_In in Ha. eauto 6.
  - intros (Hr & -> & a & -> & Ha). rewrite String.eqb_refl.
    split; [split; [exact Hr | reflexivity] | apply mem_In, Ha].
Qed.

Lemma unique_nil_iff {A} (eqb : A -> A -> bool) (l : list A) :
  unique eqb l = [] <-> l = [].
Proof. destruct l; simpl; split; intros H; congruence. Qed.

Lemma cohort_table_nil_iff (recs : list StateRecord.t) :
  (forall r, In r recs -> StateRecord.age_group r <> None) ->
  (cohort_table recs = [] <-> recs = []).
Proof.
  intros Hsome. split.
  - intros H. apply (f_equal (@List.length _)) in H. unfold cohort_table in H.
    rewrite length_map in H.
    rewrite <- (Permutation_length (sort_perm String.leb _)) in H.
    apply length_zero_iff_nil, unique_nil_iff in H.
    destruct recs as [| r recs]; [reflexivity |]. exfalso.
    specialize (Hsome r (or_introl eq_refl)). simpl in H.
    destruct (StateRecord.age_group r); [discriminate | congruence].
  - intros ->. reflexivity.
Qed.

(** X5.  A region without a record in one of the eleven age groups is no
    error: [age_by_state] then returns an empty table and an empty chart
    axis, and it returns them in no other case.  The region is compared
    exactly, letter case included. *)
Theorem age_by_state_empty_iff (data : DataFrame StateRecord.t) (state : string)
    plot df_age :
  age_by_state data state = inr (plot, df_age) ->
  (df_age = [] /\ x_range plot = [] <->
   forall r a, In r (records data) -> StateRecord.state r = Some state ->
               StateRecord.age_group r = Some a -> ~ In a AGE_GROUPS).
Proof.
  intros H. apply age_by_state_inr in H. destruct H as (_ & -> & ->).
  assert (forall r, In r (cohort_records data state) ->
                    StateRecord.age_group r <> None) as Hsome.
  { intros r Hr. apply cohort_records_In in Hr.
    destruct Hr as (_ & _ & a & -> & _). discriminate. }
  rewrite (cohort_table_nil_iff _ Hsome), unique_nil_iff. split.
  - intros [Hnil _] r a Hr Hs Ha Hin.
    assert (In r (cohort_records data state)) as Hc
      by (apply cohort_records_In; eauto 6).
    rewrite Hnil in Hc. contradiction.
  - intros H.
    assert (cohort_records data state = []) as ->; [| split; reflexivity].
    destruct (cohort_records data state) as [| r l] eqn:E; [reflexivity |]. exfalso.
    assert (In r (cohort_records data state)) as Hc by (rewrite E; left; reflexivity).
    apply cohort_records_In in Hc. destruct Hc as (Hr & Hs & a & Ha & Hin).
    apply (H r a Hr Hs Ha Hin).
Qed.

Lemma age_by_state_empty_iff_witness :
  exists plot,
    age_by_state Sample.state_data "new york" = inr (plot, []) /\ x_range plot = [].
Proof.
  eexists. split; [vm_compute; reflexivity |].
  refine (proj2 (proj2 (age_by_state_empty_iff Sample.state_data "new york" _ []
                          ltac:(vm_compute; reflexivity)) _)).
  intros r a Hr Hs. simpl in Hr.
  repeat (destruct Hr as [<- | Hr]; [discriminate |]). contradiction.
Defined.

Lemma cohort_table_key_In (recs : list StateRecord.t) (k : string) :
  In k (map fst (cohort_table recs)) <->
  exists r, In r recs /\ StateRecord.age_group r = Some k.
Proof.
  rewrite cohort_table_keys.
  assert (In k (sort String.leb
                  (unique String.eqb (texts (map StateRecord.age_group recs))))
          <-> In k (unique String.eqb (texts (map StateRecord.age_group recs)))) as ->.
  { split; apply Permutation_in;
      [apply Permutation_sym |]; apply (sort_perm String.leb). }
  rewrite (unique_In String.eqb String.eqb_eq), texts_In, in_map_iff.
  split; intros (r & H1 & H2); exists r; auto.
Qed.

Lemma cohort_table_keys_NoDup (recs : list StateRecord.t) :
  NoDup (map fst (cohort_table recs)).
Proof.
  rewrite cohort_table_keys.
  apply (Permutation_NoDup (sort_perm String.leb _)).
  apply (unique_NoDup String.eqb String.eqb_eq).
Qed.

Lemma unique_texts (col : list (option string)) :
  (forall c, In c col -> c <> None) ->
  unique cell_eq col = map Some (unique String.eqb (texts col)).
Proof.
  induction col as [| c col IH]; intros H; simpl; [reflexivity |].
  destruct c as [s |]; [| exfalso; apply (H None); [left |]; reflexivity].
  simpl. f_equal. rewrite IH by (intros c Hc; apply H; right; exact Hc).
  generalize (unique String.eqb (texts col)). clear. intros l.
  induction l as [| t l IHl]; simpl; [reflexivity |].
  destruct (String.eqb t s); simpl; rewrite IHl; reflexivity.
Qed.

(** X6.  Every cohort of the returned table is one of the eleven age
    groups and is the age group of some record of the region; no cohort has
    two rows, so the table has at most eleven, and the chart axis names the
    same number of cohorts. *)
Theorem age_by_state_cohorts_canonical (data : DataFrame StateRecord.t)
    (state : string) plot df_age :
  age_by_state data state = inr (plot, df_age) ->
  (forall k, In k (map fst df_age) <->
             In k AGE_GROUPS /\
             exists r, In r (records data) /\ StateRecord.state r = Some state /\
                       StateRecord.age_group r = Some k) /\
  NoDup (map fst df_age) /\
  (List.length df_age <= 11)%nat /\
  List.length (x_range plot) = List.length df_age.
Proof.
  intros H. apply age_by_state_inr in H. destruct H as (_ & Hx & ->).
  assert (forall k, In k (map fst (cohort_table (cohort_records data state))) <->
                    In k AGE_GROUPS /\
                    exists r, In r (records data) /\ StateRecord.state r = Some state /\
                              StateRecord.age_group r = Some k) as Hkeys.
  { intros k. rewrite cohort_table_key_In. split.
    - intros (r & Hr & Hk). apply cohort_records_In in Hr.
      destruct Hr as (Hr & Hs & a & Ha & Hin).
      assert (a = k) as -> by congruence. eauto 6.
    - intros (Hin & r & Hr & Hs & Hk). exists r. split; [| exact Hk].
      apply cohort_records_In. eauto 6. }
  split; [exact Hkeys |]. split; [apply cohort_table_keys_NoDup |]. split.
  - rewrite <- (length_map fst).
    change 11%nat with (List.length AGE_GROUPS).
    apply NoDup_incl_length; [apply cohort_table_keys_NoDup |].
    intros k Hk. apply Hkeys in Hk. apply Hk.
  - rewrite Hx, unique_texts.
    + unfold cohort_table. rewrite !length_map.
      apply (Permutation_length (sort_perm String.leb _)).
    + intros c Hc E. subst c. apply in_map_iff in Hc. destruct Hc as (r & Ha & Hr).
      apply cohort_records_In in Hr. destruct Hr as (_ & _ & a & Ha' & _). congruence.
Qed.

Lemma age_by_state_cohorts_canonical_witness :
  exists plot df_age,
    age_by_state Sample.state_data "New York" = inr (plot, df_age) /\
    map fst df_age = ["25-34 years"; "Under 1 year"] /\
    (List.length df_age <= 11)%nat.
Proof.
  eexists. eexists. split; [vm_compute; reflexivity |]. split; [reflexivity |].
  apply (age_by_state_cohorts_canonical Sample.state_data "New York" _ _
           ltac:(vm_compute; reflexivity)).
Defined.

Lemma cohort_filter (data : DataFrame StateRecord.t) (state k : string) :
  In k AGE_GROUPS ->
  filter (fun r => cell_eqb k (StateRecord.age_group r)) (cohort_records data state)
  = filter (in_cohort state k) (records data).
Proof.
  intros Hk. unfold cohort_records. rewrite !filter_filter.
  apply filter_ext. intros r. unfold in_cohort.
  destruct (cell_eqb state (StateRecord.state r)); cbn [andb]; [| reflexivity].
  destruct (cell_eqb k (StateRecord.age_group r)) eqn:E; [| apply andb_false_r].
  rewrite andb_true_r. unfold cell_eqb in E.
  destruct (StateRecord.age_group r) as [a |]; [| discriminate].
  apply String.eqb_eq in E. subst a. cbn [isin]. apply mem_In, Hk.
Qed.

Lemma exact_sum_bound (col : list (option Z)) :
  (Z.abs (exact_sum col) <= abs_sum col)%Z.
Proof.
  induction col as [| c col IH]; simpl; lia.
Qed.

Lemma abs_sum_nonneg (col : list (option Z)) : (0 <= abs_sum col)%Z.
Proof.
  induction col as [| c col IH]; simpl; lia.
Qed.

Lemma exact_sum_app (l1 l2 : list (option Z)) :
  exact_sum (l1 ++ l2) = (exact_sum l1 + exact_sum l2)%Z.
Proof.
  induction l1 as [| c l1 IH]; simpl; lia.
Qed.

Lemma abs_sum_app (l1 l2 : list (option Z)) :
  abs_sum (l1 ++ l2) = (abs_sum l1 + abs_sum l2)%Z.
Proof.
  induction l1 as [| c l1 IH]; simpl; lia.
Qed.

Lemma abs_sum_filter {A} (f : A -> option Z) (q : A -> bool) (l : list A) :
  (abs_sum (map f (filter q l)) <= abs_sum (map f l))%Z.
Proof.
  induction l as [| a l IH]; simpl; [lia |].
  destruct (q a); simpl; lia.
Qed.

(** A sum whose magnitudes add up to at most 2^53 is the same in int64, in
    float64 and in the integers. *)
Lemma nansum_small (col : list (option Z)) :
  (abs_sum col <= 9007199254740992)%Z -> nansum col = exact_sum col.
Proof.
  intros H. rewrite nansum_exact. apply wrap64_small.
  pose proof (exact_sum_bound col). lia.
Qed.

Lemma cohort_filter_sub (data : DataFrame StateRecord.t) (state k : string) :
  filter (fun r => cell_eqb k (StateRecord.age_group r)) (cohort_records data state)
  = filter (fun r => isin AGE_GROUPS (StateRecord.age_group r))
      (filter (in_cohort state k) (records data)).
Proof.
  unfold cohort_records. rewrite !filter_filter.
  apply filter_ext. intros r. unfold in_cohort.
  destruct (cell_eqb state (StateRecord.state r)),
           (isin AGE_GROUPS (StateRecord.age_group r)),
           (cell_eqb k (StateRecord.age_group r)); reflexivity.
Qed.

(** X7.  A row of the returned table holds, for each of the six figures in
    the order of [STATE_FIGURES], the sum of that figure over the records of
    the region in that cohort, a missing figure counting as 0; records of
    other regions or cohorts add nothing.  The sum is the exact one as long
    as the magnitudes of the cells added do not exceed 2^53 in total (beyond
    that, int64 sums wrap around and float64 sums round). *)
Theorem age_by_state_row_sums (data : DataFrame StateRecord.t) (state : string)
    plot df_age :
  age_by_state data state = inr (plot, df_age) ->
  forall k sums, In (k, sums) df_age ->
    (forall c, In c STATE_FIGURES ->
       (abs_sum (map (StateRecord.figure c)
                     (filter (in_cohort state k) (records data)))
        <= 9007199254740992)%Z) ->
    sums = map (fun c => exact_sum (map (StateRecord.figure c)
                                      (filter (in_cohort state k) (records data))))
               STATE_FIGURES.
Proof.
  intros H k sums Hin Hsmall. apply age_by_state_inr in H. destruct H as (_ & _ & ->).
  assert (In k (map fst (cohort_table (cohort_records data state)))) as Hk
    by (apply (in_map fst _ _ Hin)).
  apply cohort_table_key_In in Hk. destruct Hk as (r & Hr & Ha).
  apply cohort_records_In in Hr. destruct Hr as (_ & _ & a & Ha' & HinA).
  assert (a = k) as -> by congruence.
  unfold cohort_table in Hin. apply in_map_iff in Hin.
  destruct Hin as (k' & E & _). inversion E; subst k' sums.
  unfold cohort_sums. rewrite (cohort_filter data state k HinA).
  apply map_ext_in. intros c Hc. apply nansum_small, Hsmall, Hc.
Qed.

Lemma age_by_state_row_sums_witness :
  exists plot df_age,
    age_by_state Sample.state_data "New York" = inr (plot, df_age) /\
    In ("Under 1 year", [3; 203; 6; 2; 0; 7]%Z) df_age /\
    map (fun c => exact_sum (map (StateRecord.figure c)
                               (filter (in_cohort "New York" "Under 1 year")
                                       (records Sample.state_data))))
        STATE_FIGURES
    = [3; 203; 6; 2; 0; 7]%Z.
Proof.
  eexists. eexists. split; [vm_compute; reflexivity |].
  split; [right; left; reflexivity |].
  symmetry.
  apply (age_by_state_row_sums Sample.state_data "New York" _ _
           ltac:(vm_compute; reflexivity) "Under 1 year" [3; 203; 6; 2; 0; 7]%Z
           ltac:(right; left; reflexivity)).
  intros c Hc. simpl in Hc.
  repeat (destruct Hc as [<- | Hc]; [vm_compute; discriminate |]). contradiction.
Defined.

Lemma cohort_sums_small (recs : list StateRecord.t) (k : string) :
  (forall c, In c STATE_FIGURES ->
     (abs_sum (map (StateRecord.figure c)
                   (filter (fun r => cell_eqb k (StateRecord.age_group r)) recs))
      <= 9007199254740992)%Z) ->
  cohort_sums recs k
  = map (fun c => exact_sum
                    (map (StateRecord.figure c)
                         (filter (fun r => cell_eqb k (StateRecord.age_group r)) recs)))
        STATE_FIGURES.
Proof.
  intros H. unfold cohort_sums. apply map_ext_in. intros c Hc.
  apply nansum_small, H, Hc.
Qed.

Lemma find_key_map {B} (f : string -> B) (keys : list string) (k : string) :
  find (fun row => String.eqb (fst row) k) (map (fun k' => (k', f k')) keys)
  = if mem k keys then Some (k, f k) else None.
Proof.
  induction keys as [| k' keys IH]; simpl; [reflexivity |].
  rewrite (String.eqb_sym k k'). destruct (String.eqb_spec k' k) as [-> | Hne]; simpl.
  - reflexivity.
  - exact IH.
Qed.

Lemma totals_cohort_table (recs : list StateRecord.t) (k : string) :
  totals (cohort_table recs) k = cohort_sums recs k.
Proof.
  unfold totals, cohort_table. rewrite find_key_map.
  destruct (mem k _) eqn:Hm; [reflexivity |].
  assert (filter (fun r => cell_eqb k (StateRecord.age_group r)) recs = []) as Hnil.
  { apply filter_nil_all. intros r Hr.
    apply not_true_is_false. intros E. unfold cell_eqb in E.
    destruct (StateRecord.age_group r) as [a |] eqn:Ha; [| discriminate].
    apply String.eqb_eq in E. subst a.
    assert (In k (map fst (cohort_table recs))) as Hin
      by (apply cohort_table_key_In; eauto).
    rewrite cohort_table_keys in Hin. apply mem_In in Hin. congruence. }
  unfold cohort_sums. rewrite Hnil. reflexivity.
Qed.

Lemma cohort_records_app (d d1 d2 : DataFrame StateRecord.t) (state : string) :
  records d = (records d1 ++ records d2)%list ->
  cohort_records d state = (cohort_records d1 state ++ cohort_records d2 state)%list.
Proof.
  intros H. unfold cohort_records. rewrite H, !filter_app. reflexivity.
Qed.

(** X8.  The table is additive over a split of the dataset: if the
    records of a dataset are those of a first part followed by those of a
    second, each cohort's six sums over the whole are the sums over the
    first part plus the sums over the second (a cohort missing from a part
    counting as zeros), for every cohort whose cells do not exceed 2^53 in
    total magnitude over the whole, so that no sum wraps around or rounds. *)
Theorem age_by_state_additive (d d1 d2 : DataFrame StateRecord.t) (state : string)
    plot df_age plot1 df_age1 plot2 df_age2 :
  records d = (records d1 ++ records d2)%list ->
  age_by_state d state = inr (plot, df_age) ->
  age_by_state d1 state = inr (plot1, df_age1) ->
  age_by_state d2 state = inr (plot2, df_age2) ->
  forall k,
    (forall c, In c STATE_FIGURES ->
       (abs_sum (map (StateRecord.figure c) (filter (in_cohort state k) (records d)))
        <= 9007199254740992)%Z) ->
    totals df_age k = add_each (totals df_age1 k) (totals df_age2 k).
Proof.
  intros Hrec H H1 H2 k Hsmall.
  apply age_by_state_inr in H, H1, H2.
  destruct H as (_ & _ & ->), H1 as (_ & _ & ->), H2 as (_ & _ & ->).
  rewrite !totals_cohort_table.
  assert (forall c, In c STATE_FIGURES ->
            (abs_sum (map (StateRecord.figure c)
                          (filter (fun r => cell_eqb k (StateRecord.age_group r))
                                  (cohort_records d state)))
             <= 9007199254740992)%Z) as Hw.
  { intros c Hc. rewrite cohort_filter_sub.
    pose proof (abs_sum_filter (StateRecord.figure c)
                  (fun r => isin AGE_GROUPS (StateRecord.age_group r))
                  (filter (in_cohort state k) (records d))).
    specialize (Hsmall c Hc). lia. }
  rewrite (cohort_records_app d d1 d2 state Hrec) in *.
  assert (forall c,
            abs_sum (map (StateRecord.figure c)
                      (filter (fun r => cell_eqb k (StateRecord.age_group r))
                              (cohort_records d1 state ++ cohort_records d2 state)))
            = (abs_sum (map (StateRecord.figure c)
                         (filter (fun r => cell_eqb k (StateRecord.age_group r))
                                 (cohort_records d1 state)))
               + abs_sum (map (StateRecord.figure c)
                           (filter (fun r => cell_eqb k (StateRecord.age_group r))
                                   (cohort_records d2 state))))%Z) as Hsplit.
  { intros c. rewrite filter_app, map_app. apply abs_sum_app. }
  rewrite (cohort_sums_small _ k Hw).
  rewrite (cohort_sums_small (cohort_records d1 state) k).
  2:{ intros c Hc. specialize (Hw c Hc). rewrite Hsplit in Hw.
      pose proof (abs_sum_nonneg
                    (map (StateRecord.figure c)
                       (filter (fun r => cell_eqb k (StateRecord.age_group r))
                               (cohort_records d2 state)))). lia. }
  rewrite (cohort_sums_small (cohort_records d2 state) k).
  2:{ intros c Hc. specialize (Hw c Hc). rewrite Hsplit in Hw.
      pose proof (abs_sum_nonneg
                    (map (StateRecord.figure c)
                       (filter (fun r => cell_eqb k (StateRecord.age_group r))
                               (cohort_records d1 state)))). lia. }
  unfold STATE_FIGURES. cbn [map add_each].
  rewrite !filter_app, !map_app, !exact_sum_app. reflexivity.
Qed.

Lemma age_by_state_additive_witness :
  exists plot df_age plot1 df_age1 plot2 df_age2,
    age_by_state Sample.state_data "New York" = inr (plot, df_age) /\
    age_by_state Sample.state_head "New York" = inr (plot1, df_age1) /\
    age_by_state Sample.state_tail "New York" = inr (plot2, df_age2) /\
    totals df_age "Under 1 year" = [3; 203; 6; 2; 0; 7]%Z /\
    totals df_age "Under 1 year"
    = add_each (totals df_age1 "Under 1 year") (totals df_age2 "Under 1 year").
Proof.
  do 6 eexists.
  split; [vm_compute; reflexivity |]. split; [vm_compute; reflexivity |].
  split; [vm_compute; reflexivity |]. split; [reflexivity |].
  apply (age_by_state_additive Sample.state_data Sample.state_head Sample.state_tail
           "New York" _ _ _ _ _ _ eq_refl
           ltac:(vm_compute; reflexivity) ltac:(vm_compute; reflexivity)
           ltac:(vm_compute; reflexivity)).
  intros c Hc. simpl in Hc.
  repeat (destruct Hc as [<- | Hc]; [vm_compute; discriminate |]). contradiction.
Defined.

(** X9.  After the rollup filter no record is left for a region whose name
    has "Total" in it: [age_by_state] on the filtered dataset returns an
    empty table and an empty axis for every such name. *)
Theorem total_region_has_no_cohorts (sd sd' : DataFrame StateRecord.t)
    (state : string) plot df_age :
  drop_totals sd = inr sd' ->
  Substring "Total" state ->
  age_by_state sd' state = inr (plot, df_age) ->
  df_age = [] /\ x_range plot = [].
Proof.
  intros Hd Hsub H. apply age_by_state_inr in H. destruct H as (_ & -> & ->).
  assert (cohort_records sd' state = []) as ->; [| split; reflexivity].
  destruct (cohort_records sd' state) as [| r l] eqn:E; [reflexivity |]. exfalso.
  assert (In r (cohort_records sd' state)) as Hr by (rewrite E; left; reflexivity).
  apply cohort_records_In in Hr. destruct Hr as (Hr & Hs & _).
  apply drop_totals_inr in Hd. destruct Hd as (_ & _ & ->).
  unfold records in Hr. apply in_map_iff in Hr. destruct Hr as ([i r'] & Er & Hir).
  simpl in Er. subst r'.
  assert (In (i, r) (filter (fun ir => is_total (snd ir))
                       (rows (drop (map fst (filter (fun ir => is_total (snd ir))
                                                   (rows sd))) sd)))) as Hin.
  { apply filter_In. split; [exact Hir |]. unfold is_total. simpl. rewrite Hs.
    apply contains_spec, Hsub. }
  rewrite drop_survivors_not_total in Hin. contradiction.
Qed.

Lemma total_region_has_no_cohorts_witness :
  exists sd' plot,
    drop_totals Sample.state_data = inr sd' /\
    age_by_state sd' "United States Total" = inr (plot, []) /\
    x_range plot = [].
Proof.
  exists (drop [0%nat] Sample.state_data). eexists.
  split; [vm_compute; reflexivity |]. split; [vm_compute; reflexivity |].
  assert (Substring "Total" "United States Total") as Hsub.
  { exists "United States ", "". reflexivity. }
  pose proof (total_region_has_no_cohorts Sample.state_data
                (drop [0%nat] Sample.state_data) "United States Total"
                _ _ ltac:(vm_compute; reflexivity) Hsub
                ltac:(vm_compute; reflexivity)) as H.
  apply H.
Defined.

(** ** [deaths_by_county] *)

Lemma failure_cause_none_pair sm cd (data : DataFrame CountyRecord.t) (state : string) :
  failure_cause sm cd data state -> deaths_by_county sm cd data state = NoneNone.
Proof.
  intros H. unfold deaths_by_county.
  destruct (deaths_by_county_try sm cd data state) as [e | p] eqn:Htry; [reflexivity |].
  exfalso. apply deaths_by_county_try_inr_keys in Htry.
  destruct Htry as (code & hi & Hres & Hreq & Hrsv & Hgeo & Hmerge & _).
  destruct H as [Hnone | c Hc Hno | c Hc Hin | code' Hres' Hnil | code' Hres' Hrec Hnum].
  - congruence.
  - apply Hno, Hreq, Hc.
  - apply (Hrsv c Hc Hin).
  - rewrite Hres in Hres'. inversion Hres'; subst code'. contradiction.
  - rewrite Hres in Hres'. inversion Hres'; subst code'.
    destruct Hmerge as [Hnil | (r & Hr & Hne)]; [contradiction |].
    apply Hne, Hnum, Hr.
Qed.

Lemma cell_eqb_true (s : string) (c : option string) :
  cell_eqb s c = true <-> c = Some s.
Proof.
  unfold cell_eqb. destruct c as [t |]; split; intros H; try discriminate.
  - apply String.eqb_eq in H. congruence.
  - inversion H. apply String.eqb_refl.
Qed.

Lemma region_records_nil_iff (data : DataFrame CountyRecord.t) (code : string) :
  region_records data code = [] <->
  forall r, In r (records data) -> CountyRecord.state_name r <> Some code.
Proof.
  unfold region_records. split.
  - intros H r Hr E.
    assert (In r (filter (fun r => cell_eqb code (CountyRecord.state_name r))
                         (records data))) as Hin.
    { apply filter_In. split; [exact Hr | apply cell_eqb_true, E]. }
    rewrite H in Hin. contradiction.
  - intros H. apply filter_nil_all. intros r Hr. apply not_true_is_false.
    intros E. apply cell_eqb_true in E. apply (H r Hr E).
Qed.

(** X10.  For a mapping with ASCII codes, [deaths_by_county] returns a plot
    exactly when the name has a code in the mapping, the dataset has the six
    columns the function reads and none named like the geometry's [lons],
    [lats] or [name], the geometry table has an entry for the lower-cased
    code, and the join keys can be merged: the dataset has no record of the
    code, or its [county_name] column holds text in some record.  The plot
    is titled with the display name. *)
Theorem plot_iff_no_failure_cause sm cd (data : DataFrame CountyRecord.t)
    (state : string) :
  (forall code name, In (code, name) sm -> is_ascii code) ->
  ((exists p, deaths_by_county sm cd data state = Plot p) <->
   exists code,
     resolve sm state = Some (code, state) /\
     (forall c, In c county_required -> In c (columns data)) /\
     (forall c, In c county_reserved -> ~ In c (columns data)) /\
     (exists g, In g (map snd cd) /\ Geometry.state g = lower code) /\
     ((forall r, In r (records data) -> CountyRecord.state_name r <> Some code) \/
      exists r, In r (records data) /\ CountyRecord.county_name r <> None)) /\
  forall p, deaths_by_county sm cd data state = Plot p ->
            title p = String.append state " - Covid Deaths".
Proof.
  intros _.
  assert (forall code, region_geometry cd code <> [] <->
                       exists g, In g (map snd cd) /\ Geometry.state g = lower code)
    as Hgeo_iff.
  { intros code. unfold region_geometry. split.
    - intros H.
      destruct (map snd (filter
                  (fun kv => String.eqb (Geometry.state (snd kv)) (lower code)) cd))
        as [| g l] eqn:E; [congruence |].
      assert (In g (map snd (filter
                (fun kv => String.eqb (Geometry.state (snd kv)) (lower code)) cd)))
        as Hin by (rewrite E; left; reflexivity).
      apply in_map_iff in Hin. destruct Hin as (kv & <- & Hkv).
      apply filter_In in Hkv. destruct Hkv as [Hkv Hs]. apply String.eqb_eq in Hs.
      exists (snd kv). split; [apply in_map, Hkv | exact Hs].
    - intros (g & Hg & Hs) E. apply in_map_iff in Hg. destruct Hg as (kv & <- & Hkv).
      assert (In (snd kv) (map snd (filter
                (fun kv => String.eqb (Geometry.state (snd kv)) (lower code)) cd)))
        as Hin.
      { apply in_map, filter_In. split; [exact Hkv | apply String.eqb_eq, Hs]. }
      rewrite E in Hin. contradiction. }
  split; [split |].
  - intros (p & H). apply deaths_by_county_Plot, deaths_by_county_try_inr_keys in H.
    destruct H as (code & hi & Hres & Hreq & Hrsv & Hgeo & Hmerge & _).
    exists code. repeat (split; [assumption |]). split; [apply Hgeo_iff, Hgeo |].
    destruct Hmerge as [Hnil | Htext]; [left | right; exact Htext].
    apply region_records_nil_iff, Hnil.
  - intros (code & Hres & Hreq & Hrsv & Hg & Hmerge). apply Hgeo_iff in Hg.
    assert (keys_mergeable data code) as Hm.
    { destruct Hmerge as [Hnil | Htext]; [left | right; exact Htext].
      apply region_records_nil_iff, Hnil. }
    destruct (deaths_by_county_try_total sm cd data state code Hres Hreq Hrsv Hg Hm)
      as [hi Hhi].
    eexists. unfold deaths_by_county. rewrite Hhi. reflexivity.
  - intros p H. apply deaths_by_county_Plot, deaths_by_county_try_inr in H.
    destruct H as (code & hi & _ & _ & _ & _ & _ & ->). reflexivity.
Qed.

Lemma sample_codes_ascii :
  forall code name, In (code, name) Sample.state_mapping -> is_ascii code.
Proof.
  intros code name H. simpl in H.
  repeat (destruct H as [E | H];
          [inversion E; subst; repeat constructor; cbv; lia |]).
  contradiction.
Qed.

Lemma plot_iff_no_failure_cause_witness :
  (forall code name, In (code, name) Sample.state_mapping -> is_ascii code) /\
  (exists p, deaths_by_county Sample.state_mapping Sample.county_data
               Sample.mortality "New York" = Plot p) /\
  deaths_by_county Sample.state_mapping Sample.county_data Sample.mortality_no_names
    "New York" = NoneNone.
Proof.
  split; [exact sample_codes_ascii |]. split.
  - apply (proj1 (plot_iff_no_failure_cause Sample.state_mapping Sample.county_data
                    Sample.mortality "New York" sample_codes_ascii)).
    exists "NY". split; [reflexivity |].
    split; [intros c Hc; simpl in *; intuition |].
    split; [intros c Hc Hin; simpl in *;
            repeat (destruct Hc as [<- | Hc];
                    [repeat (destruct Hin as [E | Hin]; [discriminate |]);
                     contradiction |]); contradiction |].
    split; [exists Sample.albany; split; [simpl; auto | reflexivity] |].
    right. exists (Sample.county_row "NY" "Albany County" 5).
    split; [simpl; auto | discriminate].
  - vm_compute. reflexivity.
Defined.

Lemma resolve_first (pre post : list (string * string)) (code state : string) :
  (forall c n, In (c, n) pre -> n <> state) ->
  resolve (pre ++ (code, state) :: post) state = Some (code, state).
Proof.
  intros H. unfold resolve. rewrite filter_app.
  rewrite (filter_nil_all _ pre).
  - simpl. rewrite String.eqb_refl. reflexivity.
  - intros [c n] Hin. simpl. apply String.eqb_neq. apply (H c n Hin).
Qed.

Lemma deaths_by_county_resolve sm sm' cd (data : DataFrame CountyRecord.t)
    (state : string) :
  resolve sm state = resolve sm' state ->
  deaths_by_county sm cd data state = deaths_by_county sm' cd data state.
Proof.
  intros H. unfold deaths_by_county, deaths_by_county_try. unfold resolve in H.
  rewrite H. reflexivity.
Qed.

(** X11.  When several codes of the mapping carry the display name, the
    first one in the mapping's order is the one used: the result is what the
    mapping with that single entry gives, whatever follows it. *)
Theorem first_code_of_name_wins (pre post : list (string * string)) cd
    (data : DataFrame CountyRecord.t) (code state : string) :
  (forall c n, In (c, n) pre -> n <> state) ->
  deaths_by_county (pre ++ (code, state) :: post) cd data state
  = deaths_by_county [(code, state)] cd data state.
Proof.
  intros H. apply deaths_by_county_resolve.
  rewrite (resolve_first pre post code state H).
  symmetry. apply (resolve_first [] [] code state). intros c n [].
Qed.

Lemma first_code_of_name_wins_witness :
  deaths_by_county
    ([("CA", "California")] ++ ("NY", "New York") :: [("ny2", "New York")])
    Sample.county_data Sample.mortality "New York"
  = deaths_by_county [("NY", "New York")] Sample.county_data Sample.mortality "New York".
Proof.
  apply first_code_of_name_wins.
  intros c n [E | []]. inversion E. discriminate.
Defined.

Lemma plot_transfers sm cd (data data' : DataFrame CountyRecord.t) (state : string) p :
  (forall c, In c (columns data) <-> In c (columns data')) ->
  (forall code, resolve sm state = Some (code, state) ->
     keys_mergeable data code -> keys_mergeable data' code) ->
  (forall code, resolve sm state = Some (code, state) ->
     joined (region_records data code) (region_geometry cd code)
     = joined (region_records data' code) (region_geometry cd code)) ->
  deaths_by_county sm cd data state = Plot p ->
  deaths_by_county sm cd data' state = Plot p.
Proof.
  intros Hc Hk Hj H. apply deaths_by_county_Plot, deaths_by_county_try_inr_keys in H.
  destruct H as (code & hi & Hres & Hreq & Hrsv & Hgeo & Hmerge & Hhi & ->).
  destruct (deaths_by_county_try_total sm cd data' state code Hres) as [hi' Hhi'];
    [intros c Hin; apply Hc, Hreq, Hin
    | intros c Hin Hin'; apply (Hrsv c Hin), Hc, Hin'
    | exact Hgeo
    | apply (Hk code Hres Hmerge) |].
  pose proof (deaths_by_county_try_inr _ _ _ _ _ Hhi')
    as (code' & hi'' & Hres' & _ & _ & _ & Hmax & Hfig).
  rewrite Hres in Hres'. inversion Hres'; subst code'.
  rewrite <- (Hj code Hres) in *.
  assert (hi'' = hi) as -> by congruence.
  unfold deaths_by_county. rewrite Hhi', Hfig. reflexivity.
Qed.

Lemma deaths_by_county_same sm cd (data data' : DataFrame CountyRecord.t)
    (state : string) :
  (forall c, In c (columns data) <-> In c (columns data')) ->
  (forall code, resolve sm state = Some (code, state) ->
     (keys_mergeable data code <-> keys_mergeable data' code)) ->
  (forall code, resolve sm state = Some (code, state) ->
     joined (region_records data code) (region_geometry cd code)
     = joined (region_records data' code) (region_geometry cd code)) ->
  deaths_by_county sm cd data state = deaths_by_county sm cd data' state.
Proof.
  intros Hc Hk Hj.
  destruct (deaths_by_county sm cd data state) as [p |] eqn:H.
  - symmetry. apply (plot_transfers sm cd data data' state p Hc); try assumption.
    intros code Hres. apply (Hk code Hres).
  - destruct (deaths_by_county sm cd data' state) as [p' |] eqn:H'; [| reflexivity].
    apply (plot_transfers sm cd data' data state p') in H'.
    + congruence.
    + intros c. symmetry. apply Hc.
    + intros code Hres. apply (Hk code Hres).
    + intros code Hres. symmetry. apply Hj, Hres.
Qed.

(** X12.  The result depends on the mortality dataset only through its
    column labels, through whether its [county_name] column holds text at
    all (its dtype), and through its records of the resolved code: two
    datasets that agree on these, the records with that code in
    [state_name] being the same in the same order, give the same result,
    whatever other records they hold. *)
Theorem other_regions_do_not_matter sm cd (data data' : DataFrame CountyRecord.t)
    (state : string) :
  (forall c, In c (columns data) <-> In c (columns data')) ->
  ((exists r, In r (records data) /\ CountyRecord.county_name r <> None) <->
   (exists r, In r (records data') /\ CountyRecord.county_name r <> None)) ->
  (forall code, resolve sm state = Some (code, state) ->
     filter (fun r => cell_eqb code (CountyRecord.state_name r)) (records data)
     = filter (fun r => cell_eqb code (CountyRecord.state_name r)) (records data')) ->
  deaths_by_county sm cd data state = deaths_by_county sm cd data' state.
Proof.
  intros Hc Ht Hr. apply deaths_by_county_same; [exact Hc | |].
  - intros code Hres. unfold keys_mergeable, region_records.
    rewrite (Hr code Hres), Ht. reflexivity.
  - intros code Hres. unfold region_records. rewrite (Hr code Hres). reflexivity.
Qed.

Lemma other_regions_do_not_matter_witness :
  deaths_by_county Sample.state_mapping Sample.county_data Sample.mortality "New York"
  = deaths_by_county Sample.state_mapping Sample.county_data Sample.mortality_ny
      "New York".
Proof.
  apply other_regions_do_not_matter.
  - intros c. reflexivity.
  - split; intros _; exists (Sample.county_row "NY" "Albany County" 5);
      (split; [simpl; auto | discriminate]).
  - intros code Hres. vm_compute in Hres. inversion Hres; subst code. reflexivity.
Defined.

Lemma perm_short_eq {A} (l l' : list A) :
  Permutation l l' -> (List.length l <= 1)%nat -> l = l'.
Proof.
  intros Hp Hlen. destruct l as [| a [| b l]]; simpl in Hlen; [| | lia].
  - apply Permutation_nil in Hp. congruence.
  - apply Permutation_length_1_inv in Hp. congruence.
Qed.

Lemma joined_ext (recs recs' : list CountyRecord.t) (geos : list Geometry.t) :
  (forall g, In g geos -> matches (county_key g) recs = matches (county_key g) recs') ->
  joined recs geos = joined recs' geos.
Proof.
  intros H. unfold joined. induction geos as [| g geos IH]; simpl; [reflexivity |].
  rewrite IH by (intros g' Hg'; apply H; right; exact Hg').
  unfold joined_for. rewrite (H g (or_introl eq_refl)). reflexivity.
Qed.

(** X13.  Where no county of the region has two mortality records, the
    order of the rows of the mortality dataset does not matter: a dataset
    with the same column labels and the same records in another order gives
    the same result. *)
Theorem mortality_row_order_irrelevant sm cd (data data' : DataFrame CountyRecord.t)
    (state : string) :
  (forall c, In c (columns data) <-> In c (columns data')) ->
  Permutation (records data) (records data') ->
  (forall code g, resolve sm state = Some (code, state) ->
     In g (region_geometry cd code) ->
     (List.length (matches (county_key g) (region_records data code)) <= 1)%nat) ->
  deaths_by_county sm cd data state = deaths_by_county sm cd data' state.
Proof.
  intros Hc Hp Hone. apply deaths_by_county_same; [exact Hc | |].
  - intros code Hres. unfold keys_mergeable.
    assert (region_records data code = [] <-> region_records data' code = []) as ->.
    { unfold region_records.
      pose proof (filter_perm (fun r => cell_eqb code (CountyRecord.state_name r))
                    _ _ Hp) as Hf.
      split; intros E; rewrite E in Hf;
        [apply Permutation_nil, Hf | apply Permutation_nil, Permutation_sym, Hf]. }
    assert ((exists r, In r (records data) /\ CountyRecord.county_name r <> None) <->
            (exists r, In r (records data') /\ CountyRecord.county_name r <> None))
      as ->; [| reflexivity].
    split; intros (r & Hr & Hn); exists r; (split; [| exact Hn]).
    + apply (Permutation_in _ Hp Hr).
    + apply (Permutation_in _ (Permutation_sym Hp) Hr).
  - intros code Hres. apply joined_ext. intros g Hg.
    apply perm_short_eq; [| apply (Hone code g Hres Hg)].
    unfold matches, region_records. apply filter_perm, filter_perm, Hp.
Qed.

Lemma mortality_row_order_irrelevant_witness :
  deaths_by_county Sample.state_mapping Sample.county_data Sample.mortality "New York"
  = deaths_by_county Sample.state_mapping Sample.county_data Sample.mortality_swapped
      "New York".
Proof.
  apply mortality_row_order_irrelevant.
  - intros c. reflexivity.
  - apply perm_swap.
  - intros code g Hres Hg. vm_compute in Hres. inversion Hres; subst code.
    simpl in Hg. repeat (destruct Hg as [<- | Hg]; [vm_compute; lia |]). contradiction.
Defined.

Lemma joined_In (recs : list CountyRecord.t) (geos : list Geometry.t) (m : Merged.t) :
  In m (joined recs geos) ->
  In (Merged.right m) geos /\
  ((Merged.left m = None /\ unmatched recs (Merged.right m)) \/
   exists r, Merged.left m = Some r /\ In r recs /\
             CountyRecord.county_name r = Some (county_key (Merged.right m))).
Proof.
  unfold joined. intros H. apply in_flat_map in H. destruct H as (g & Hg & Hm).
  pose proof (joined_for_right recs g m Hm) as Hr. rewrite Hr.
  split; [exact Hg |]. unfold joined_for in Hm.
  destruct (matches (county_key g) recs) as [| r0 ms] eqn:E.
  - destruct Hm as [<- | []]. left. split; [reflexivity |].
    intros r Hin Hk.
    assert (In r (matches (county_key g) recs)) as Hin'.
    { apply filter_In. split; [exact Hin | apply cell_eqb_true, Hk]. }
    rewrite E in Hin'. contradiction.
  - right. apply in_map_iff in Hm. destruct Hm as (r & <- & Hin).
    rewrite <- E in Hin. apply filter_In in Hin. destruct Hin as [Hin Hk].
    exists r. split; [reflexivity |]. split; [exact Hin | apply cell_eqb_true, Hk].
Qed.

Lemma float64_of_int_small (z : Z) :
  (Z.abs z <= 9007199254740992)%Z -> float64_of_int z = z.
Proof.
  intros H. unfold float64_of_int. apply Z.leb_le in H. rewrite H. reflexivity.
Qed.

(** The value [astype(float)] gives is within half a unit in the last place
    of the integer: the distance, scaled by 2^53, is at most the magnitude. *)
Lemma float64_of_int_near (z : Z) :
  (Z.abs (float64_of_int z - z) * 9007199254740992 <= Z.abs z)%Z.
Proof.
  unfold float64_of_int.
  destruct (Z.leb_spec (Z.abs z) 9007199254740992) as [Hs | Hb].
  - rewrite Z.sub_diag. change (Z.abs 0) with 0%Z. lia.
  - cbv zeta.
    assert (53 <= Z.log2 (Z.abs z))%Z as Hlog.
    { change 53%Z with (Z.log2 9007199254740992). apply Z.log2_le_mono. lia. }
    pose proof (Z.log2_spec (Z.abs z) ltac:(lia)) as [Hlo _].
    set (a := Z.abs z) in *. set (e := (Z.log2 a - 52)%Z) in *.
    assert (1 <= e)%Z as He by (unfold e; lia).
    rewrite Z.shiftr_div_pow2 by lia.
    rewrite !Z.shiftl_mul_pow2 by lia.
    assert (2 ^ e = 2 * 2 ^ (e - 1))%Z as HP.
    { replace e with (Z.succ (e - 1)) at 1 by lia. apply Z.pow_succ_r. lia. }
    assert (2 ^ Z.log2 a = 2 ^ (e - 1) * 9007199254740992)%Z as Hpow.
    { replace (Z.log2 a) with ((e - 1) + 53)%Z by (unfold e; lia).
      rewrite Z.pow_add_r by lia. reflexivity. }
    assert (0 < 2 ^ (e - 1))%Z as Hh by (apply Z.pow_pos_nonneg; lia).
    pose proof (Z.div_mod a (2 ^ e) ltac:(lia)) as Hdm.
    pose proof (Z.mod_pos_bound a (2 ^ e) ltac:(lia)) as Hr.
    set (h := (2 ^ (e - 1))%Z) in *. set (P := (2 ^ e)%Z) in *.
    set (q := (a / P)%Z) in *. set (m := (a mod P)%Z) in *.
    assert (a - q * P = m)%Z as Hm by lia. rewrite Hm. rewrite Z.mul_1_l.
    assert (z = Z.sgn z * a)%Z as Hz.
    { unfold a. clear. destruct z; reflexivity. }
    assert (Z.sgn z = 1 \/ Z.sgn z = -1)%Z as Hsgn.
    { destruct z; [simpl in Hb; lia | left; reflexivity | right; reflexivity]. }
    destruct ((h <? m)%Z || ((m =? h)%Z && Z.odd q)) eqn:Hup.
    + assert (h <= m)%Z as Hge.
      { apply orb_true_iff in Hup. destruct Hup as [H | H].
        - apply Z.ltb_lt in H. lia.
        - apply andb_true_iff in H. destruct H as [H _]. apply Z.eqb_eq in H. lia. }
      destruct Hsgn as [Hs1 | Hs1]; rewrite Hs1 in *; nia.
    + assert (m <= h)%Z as Hle.
      { apply orb_false_iff in Hup. destruct Hup as [H _].
        apply Z.ltb_ge in H. exact H. }
      destruct Hsgn as [Hs1 | Hs1]; rewrite Hs1 in *; nia.
Qed.

Example float64_of_int_rounds :
  float64_of_int 9007199254740993 = 9007199254740992%Z /\
  float64_of_int 9007199254740995 = 9007199254740996%Z /\
  float64_of_int (-9007199254740993) = (-9007199254740992)%Z /\
  float64_of_int 9223372036854775807 = 9223372036854775808%Z /\
  float64_of_int 5 = 5%Z.
Proof. vm_compute. repeat split. Qed.

(** X14.  For a mapping with ASCII codes, every entry of a returned plot
    comes from the data: it carries the coordinates and name of a geometry
    entry whose region code is the lower-cased resolved code, and its rate
    is either 0.0, for a county no mortality record of the region names, or
    the float of the count (0 if missing) of a mortality record with the
    resolved code and that county's name: the count itself up to 2^53 in
    magnitude, and beyond an integer within a 2^-53 part of it. *)
Theorem emitted_entries_provenance sm cd (data : DataFrame CountyRecord.t)
    (state : string) p :
  (forall code name, In (code, name) sm -> is_ascii code) ->
  deaths_by_county sm cd data state = Plot p ->
  exists code,
    resolve sm state = Some (code, state) /\
    forall e, In e (entries (source p)) ->
      exists g rate,
        e = entry_of g rate /\
        In g (map snd cd) /\ Geometry.state g = lower code /\
        ((unmatched (region_records data code) g /\ rate = 0%Q) \/
         exists r v,
           In r (records data) /\
           CountyRecord.state_name r = Some code /\
           CountyRecord.county_name r = Some (county_key g) /\
           rate = inject_Z v /\
           ((Z.abs (fillna 0 (CountyRecord.covid_death r)) <= 9007199254740992)%Z ->
            v = fillna 0 (CountyRecord.covid_death r)) /\
           (Z.abs (v - fillna 0 (CountyRecord.covid_death r)) * 9007199254740992
            <= Z.abs (fillna 0 (CountyRecord.covid_death r)))%Z).
Proof.
  intros _ H. apply deaths_by_county_Plot, deaths_by_county_try_inr in H.
  destruct H as (code & hi & Hres & _ & _ & _ & _ & ->).
  exists code. split; [exact Hres |]. intros e He.
  rewrite entries_figure_of in He. apply in_map_iff in He.
  destruct He as (m & <- & Hm). apply joined_In in Hm. destruct Hm as [Hg Hcase].
  exists (Merged.right m), (rate_of m). split; [reflexivity |].
  unfold region_geometry in Hg. apply in_map_iff in Hg.
  destruct Hg as (kv & Ekv & Hkv). apply filter_In in Hkv. destruct Hkv as [Hkv Hs].
  apply String.eqb_eq in Hs. rewrite Ekv in Hs.
  split; [rewrite <- Ekv; apply in_map, Hkv |]. split; [exact Hs |].
  destruct Hcase as [[Hl Hun] | (r & Hl & Hr & Hk)].
  - left. split; [exact Hun |]. unfold rate_of, Merged.covid_death. rewrite Hl. reflexivity.
  - right. exists r, (float64_of_int (fillna 0 (CountyRecord.covid_death r))).
    unfold region_records in Hr. apply filter_In in Hr.
    destruct Hr as [Hr Hsn]. apply cell_eqb_true in Hsn.
    repeat (split; [assumption |]).
    split; [unfold rate_of, Merged.covid_death; rewrite Hl; reflexivity |].
    split; [apply float64_of_int_small | apply float64_of_int_near].
Qed.

Lemma emitted_entries_provenance_witness :
  exists p,
    deaths_by_county Sample.state_mapping Sample.county_data Sample.mortality "New York"
    = Plot p /\
    List.length (entries (source p)) = 3%nat /\
    exists code, resolve Sample.state_mapping "New York" = Some (code, "New York").
Proof.
  eexists. split; [vm_compute; reflexivity |]. split; [reflexivity |].
  destruct (emitted_entries_provenance Sample.state_mapping Sample.county_data
              Sample.mortality "New York" _ sample_codes_ascii
              ltac:(vm_compute; reflexivity))
    as (code & Hres & _).
  exists code. exact Hres.
Defined.

(** X17.  The join key of a geometry entry is the text of its detailed
    name before the first comma: it holds no comma, and the detailed name is
    the key itself or the key, a comma and the rest. *)
Theorem county_key_before_first_comma (g : Geometry.t) :
  ~ Substring "," (county_key g) /\
  (Geometry.detailed_name g = county_key g \/
   exists rest,
     Geometry.detailed_name g
     = String.append (county_key g) (String.append "," rest)).
Proof.
  unfold county_key. generalize (Geometry.detailed_name g). clear g. intros x. split.
  - intros H. apply contains_spec in H. revert H.
    induction x as [| c x IH]; cbn [split_comma_0]; [discriminate |].
    destruct (Ascii.eqb_spec c ","%char) as [-> | Hc]; [discriminate |].
    rewrite contains_cons. intros H. apply orb_true_iff in H.
    destruct H as [H | H]; [| apply IH, H].
    apply prefix_spec in H. destruct H as (post & E). simpl in E.
    inversion E. congruence.
  - induction x as [| c x IH]; simpl; [left; reflexivity |].
    destruct (Ascii.eqb_spec c ","%char) as [-> | Hc].
    + right. exists x. reflexivity.
    + destruct IH as [IH | (rest & IH)].
      * left. congruence.
      * right. exists rest. simpl in *. f_equal. exact IH.
Qed.

Lemma sorted_count_above (s : list Q) (c : Q) :
  StronglySorted Qleb_true s ->
  forall k, (k < List.length s)%nat -> (c < nth k s 0)%Q ->
  (List.length (filter (fun v => Qle_bool v c) s) <= k)%nat.
Proof.
  induction 1 as [| a s Hs IH Ha]; intros k Hk Hc; simpl in *; [lia |].
  destruct k as [| k].
  - assert (Qle_bool a c = false) as ->.
    { apply not_true_is_false. intros E. apply Qle_bool_iff in E.
      apply (Qlt_not_le _ _ Hc E). }
    rewrite filter_nil_all; [simpl; lia |].
    intros v Hv. apply not_true_is_false. intros E. apply Qle_bool_iff in E.
    rewrite Forall_forall in Ha. specialize (Ha v Hv). apply Qle_bool_iff in Ha.
    apply (Qlt_not_le _ _ Hc). apply (Qle_trans _ v); assumption.
  - specialize (IH k ltac:(lia) Hc).
    destruct (Qle_bool a c); simpl; lia.
Qed.

Lemma filter_length_mono {A} (f g : A -> bool) (l : list A) :
  (forall a, f a = true -> g a = true) ->
  (List.length (filter f l) <= List.length (filter g l))%nat.
Proof.
  intros H. induction l as [| a l IH]; simpl; [lia |].
  destruct (f a) eqn:Ef.
  - rewrite (H a Ef). simpl. lia.
  - destruct (g a); simpl; lia.
Qed.

(** With no negative value and more than half of the values zero, the
    median is zero. *)
Lemma median_majority_zero (l : list Q) (m : Q) :
  median l = Some m ->
  (forall v, In v l -> (0 <= v)%Q) ->
  (List.length l < 2 * List.length (filter (fun v => Qeq_bool v 0) l))%nat ->
  (m == 0)%Q.
Proof.
  intros Hm Hpos Hmaj. apply median_between in Hm. cbv zeta in Hm.
  destruct Hm as (H1 & H2 & Hlo & Hhi).
  pose proof (sort_sorted Qle_bool Qle_bool_total Qle_bool_trans l) as Hs.
  pose proof (sort_perm Qle_bool l) as Hp.
  set (s := sort Qle_bool l) in *. set (n := List.length s) in *.
  apply Qle_antisym.
  - apply (Qle_trans _ _ _ Hhi).
    destruct (Qlt_le_dec 0 (nth (n / 2) s 0%Q)) as [Hgt | Hle]; [| exact Hle].
    exfalso.
    pose proof (sorted_count_above s 0%Q Hs _ H1 Hgt) as Hc.
    rewrite <- (Permutation_length (filter_perm (fun v => Qle_bool v 0) _ _ Hp)) in Hc.
    pose proof (filter_length_mono (fun v => Qeq_bool v 0) (fun v => Qle_bool v 0) l) as Hmono.
    rewrite (Permutation_length Hp) in Hmaj. fold n in Hmaj.
    assert (List.length (filter (fun v => Qeq_bool v 0) l)
            <= List.length (filter (fun v => Qle_bool v 0) l))%nat as Hz.
    { apply Hmono. intros v Hv. apply Qeq_bool_iff in Hv. apply Qle_bool_iff.
      rewrite Hv. apply Qle_refl. }
    pose proof (Nat.div_mod_eq n 2) as E2.
    pose proof (Nat.mod_upper_bound n 2 ltac:(lia)) as B2.
    lia.
  - apply (Qle_trans _ (nth ((n - 1) / 2) s 0%Q)); [| exact Hlo].
    apply Hpos. apply (Permutation_in _ (Permutation_sym Hp)). apply nth_In. exact H2.
Qed.

(** X15.  The low end of the colour scale is the median over all emitted
    counties, the ones filled with 0.0 included: when no rate is negative
    and more than half of the emitted rates are zero, low is zero. *)
Theorem mostly_zero_rates_low_zero sm cd (data : DataFrame CountyRecord.t)
    (state : string) p :
  deaths_by_county sm cd data state = Plot p ->
  (forall v, In v (Source.rate (source p)) -> (0 <= v)%Q) ->
  (List.length (Source.rate (source p))
   < 2 * List.length (filter (fun v => Qeq_bool v 0) (Source.rate (source p))))%nat ->
  exists m, low (color_mapper p) = Some m /\ (m == 0)%Q.
Proof.
  intros H Hpos Hmaj.
  apply deaths_by_county_Plot, deaths_by_county_try_inr in H.
  destruct H as (code & hi & _ & _ & _ & _ & Hhi & ->). simpl in *.
  destruct (median_total (map rate_of (joined (region_records data code)
                                          (region_geometry cd code)))) as [m Hm].
  { intros E. rewrite E in Hhi. discriminate. }
  exists m. split; [exact Hm |]. apply (median_majority_zero _ _ Hm Hpos Hmaj).
Qed.

Lemma mostly_zero_rates_low_zero_witness :
  exists p m,
    deaths_by_county Sample.state_mapping Sample.county_data Sample.mortality "New York"
    = Plot p /\
    Source.rate (source p) = [5; 0; 0]%Q /\
    low (color_mapper p) = Some m /\ (m == 0)%Q.
Proof.
  destruct (mostly_zero_rates_low_zero Sample.state_mapping Sample.county_data
              Sample.mortality "New York" _ ltac:(vm_compute; reflexivity))
    as (m & Hm & Hz).
  - intros v Hv. simpl in Hv.
    repeat (destruct Hv as [<- | Hv]; [discriminate |]). contradiction.
  - vm_compute. lia.
  - eexists. exists m. split; [vm_compute; reflexivity |].
    split; [reflexivity |]. split; [exact Hm | exact Hz].
Defined.

Lemma joined_no_records (geos : list Geometry.t) :
  joined [] geos = map (fun g => Merged.mk None g (county_key g)) geos.
Proof.
  unfold joined. induction geos as [| g geos IH]; simpl; [reflexivity |].
  rewrite IH. reflexivity.
Qed.

(** X16.  When the mortality dataset has no record with the resolved code,
    a returned plot still has one entry for each geometry entry of the
    region, in order, every rate is 0.0, and the colour scale collapses: its
    high end is 0.0 and its low end is zero. *)
Theorem no_region_records_flat_scale sm cd (data : DataFrame CountyRecord.t)
    (state code : string) p :
  deaths_by_county sm cd data state = Plot p ->
  resolve sm state = Some (code, state) ->
  (forall r, In r (records data) -> CountyRecord.state_name r <> Some code) ->
  Source.name (source p) = map Geometry.name (region_geometry cd code) /\
  Source.rate (source p) = map (fun _ => 0%Q) (region_geometry cd code) /\
  high (color_mapper p) = 0%Q /\
  exists m, low (color_mapper p) = Some m /\ (m == 0)%Q.
Proof.
  intros H Hres Hno.
  apply deaths_by_county_Plot, deaths_by_county_try_inr in H.
  destruct H as (code' & hi & Hres' & _ & _ & Hgeo & Hhi & ->).
  rewrite Hres in Hres'. inversion Hres'; subst code'. clear Hres'.
  assert (region_records data code = []) as Hnil.
  { unfold region_records. apply filter_nil_all. intros r Hr.
    apply not_true_is_false. intros E. apply cell_eqb_true in E. apply (Hno r Hr E). }
  rewrite Hnil, joined_no_records in *. unfold figure_of. simpl.
  rewrite !map_map in *. simpl in *.
  assert (forall v, In v (map (fun _ : Geometry.t => 0%Q) (region_geometry cd code)) ->
                    v = 0%Q) as Hall.
  { intros v Hv. apply in_map_iff in Hv. destruct Hv as (g & <- & _). reflexivity. }
  change (fun x : Geometry.t => rate_of (Merged.mk None x (county_key x)))
    with (fun _ : Geometry.t => 0%Q) in *.
  split; [reflexivity |]. split; [reflexivity |]. split.
  - apply pymax_spec in Hhi. destruct Hhi as [Hin _]. apply Hall, Hin.
  - destruct (median_total (map (fun _ : Geometry.t => 0%Q) (region_geometry cd code)))
      as [m Hm].
    { destruct (region_geometry cd code); [congruence | discriminate]. }
    exists m. split; [exact Hm |]. apply (median_majority_zero _ _ Hm).
    + intros v Hv. rewrite (Hall v Hv). apply Qle_refl.
    + rewrite forallb_filter_id.
      * rewrite length_map. destruct (region_geometry cd code); [congruence | simpl; lia].
      * apply forallb_forall. intros v Hv. rewrite (Hall v Hv). reflexivity.
Qed.

Lemma no_region_records_flat_scale_witness :
  exists p,
    deaths_by_county Sample.state_mapping Sample.county_data Sample.mortality_ca
      "New York" = Plot p /\
    Source.rate (source p) = [0; 0; 0]%Q /\
    high (color_mapper p) = 0%Q.
Proof.
  eexists. split; [vm_compute; reflexivity |].
  destruct (no_region_records_flat_scale Sample.state_mapping Sample.county_data
              Sample.mortality_ca "New York" "NY" _ ltac:(vm_compute; reflexivity)
              eq_refl)
    as (_ & Hr & Hh & _).
  - intros r Hr. simpl in Hr. destruct Hr as [<- | []]. discriminate.
  - split; [exact Hr | exact Hh].
Defined.

(** ** [index] *)

Lemma drop_totals_columns (sd sd' : DataFrame StateRecord.t) :
  drop_totals sd = inr sd' -> columns sd' = columns sd /\ In "state" (columns sd).
Proof.
  intros H. apply drop_totals_inr in H. destruct H as (Hc & _ & ->).
  split; [reflexivity | apply mem_In, Hc].
Qed.

(** [index] written out as the sequence of its fallible steps. *)
Lemma index_steps sm cd comps arg (sd : DataFrame StateRecord.t)
    (cd' : DataFrame CountyRecord.t) :
  let cur := match arg with None => "New York" | Some s => s end in
  index sm cd comps arg sd cd' =
  match drop_totals sd with
  | inl e => inl e
  | inr sd' =>
      match age_by_state sd' cur with
      | inl e => inl e
      | inr (plot, _) =>
          match comps (StateModel plot) with
          | inl e => inl e
          | inr (ss, sdv) =>
              match comps (CountyModel (deaths_by_county sm cd cd' cur)) with
              | inl e => inl e
              | inr (cs, cdv) =>
                  inr (mkTemplateContext ss sdv cs cdv cur
                         (selectable (map StateRecord.state (records sd'))))
              end
          end
      end
  end.
Proof.
  intros cur. unfold index. fold cur.
  destruct (drop_totals sd) as [e | sd'] eqn:Hd; [reflexivity |]. cbn [bind].
  destruct (age_by_state sd' cur) as [e | [plot df]]; [reflexivity |]. cbn [bind].
  destruct (comps (StateModel plot)) as [e | [ss sdv]]; [reflexivity |]. cbn [bind].
  destruct (comps (CountyModel (deaths_by_county sm cd cd' cur))) as [e | [cs cdv]];
    [reflexivity |]. cbn [bind].
  apply drop_totals_columns in Hd. destruct Hd as [Hcols Hin].
  rewrite (getitem_ok sd' "state" StateRecord.state) by (rewrite Hcols; exact Hin).
  reflexivity.
Qed.

(** X18.  An error raised by a request comes from the rollup filter, from
    [age_by_state] or from [components]; [deaths_by_county] never makes
    [index] raise by itself. *)
Theorem index_error_sources sm cd comps arg (sd : DataFrame StateRecord.t)
    (cd' : DataFrame CountyRecord.t) e :
  let cur := match arg with None => "New York" | Some s => s end in
  index sm cd comps arg sd cd' = inl e ->
  drop_totals sd = inl e \/
  exists sd',
    drop_totals sd = inr sd' /\
    (age_by_state sd' cur = inl e \/
     exists plot df_age,
       age_by_state sd' cur = inr (plot, df_age) /\
       (comps (StateModel plot) = inl e \/
        comps (CountyModel (deaths_by_county sm cd cd' cur)) = inl e)).
Proof.
  intros cur. rewrite index_steps. fold cur.
  destruct (drop_totals sd) as [e1 | sd']; [intros H; left; congruence |].
  intros H. right. exists sd'. split; [reflexivity |].
  destruct (age_by_state sd' cur) as [e2 | [plot df_age]]; [left; congruence |].
  right. exists plot, df_age. split; [reflexivity |].
  destruct (comps (StateModel plot)) as [e3 | [ss sdv]]; [left; congruence |].
  destruct (comps (CountyModel (deaths_by_county sm cd cd' cur))) as [e4 | [cs cdv]];
    [right; congruence | discriminate].
Qed.

Lemma index_error_sources_witness :
  index Sample.state_mapping Sample.county_data Sample.components None
    Sample.no_state_column Sample.mortality = inl (KeyError "state") /\
  drop_totals Sample.no_state_column = inl (KeyError "state").
Proof.
  assert (index Sample.state_mapping Sample.county_data Sample.components None
            Sample.no_state_column Sample.mortality = inl (KeyError "state")) as H
    by (vm_compute; reflexivity).
  split; [exact H |].
  destruct (index_error_sources _ _ _ _ _ _ _ H) as [Hd | (sd' & Hd & _)];
    [exact Hd | vm_compute in Hd; discriminate].
Defined.

Lemma read_json_drop_rows (cols : list string) (recs : list StateRecord.t) :
  rows (drop (map fst (filter (fun ir => is_total (snd ir))
                              (rows (read_json cols recs))))
             (read_json cols recs))
  = filter (fun ir => negb (is_total (snd ir))) (rows (read_json cols recs)).
Proof.
  rewrite <- (drop_keeps_unlisted (fun r => negb (is_total r))).
  - do 3 f_equal. apply filter_ext. intros ir. rewrite negb_involutive. reflexivity.
  - rewrite index_of_read_json. apply seq_NoDup.
Qed.

(** X19.  For a state dataset as [read_json] builds it, a request that
    succeeds hands the template the requested region ("New York" when the
    query names none) and a region list with one entry for each record
    without "Total" in its region name, in row order, "New York City" left
    out: a region appears as often as it has records. *)
Theorem index_context_read_json sm cd comps arg (cols : list string)
    (recs : list StateRecord.t) (cd' : DataFrame CountyRecord.t) ctx :
  index sm cd comps arg (read_json cols recs) cd' = inr ctx ->
  current_state ctx = match arg with None => "New York" | Some s => s end /\
  states ctx
  = filter (fun x => negb (cell_eq x (Some "New York City")))
      (map StateRecord.state (filter (fun r => negb (is_total r)) recs)).
Proof.
  rewrite index_steps.
  destruct (drop_totals (read_json cols recs)) as [e | sd'] eqn:Hd; [discriminate |].
  destruct (age_by_state sd' _) as [e | [plot df_age]]; [discriminate |].
  destruct (comps (StateModel plot)) as [e | [ss sdv]]; [discriminate |].
  destruct (comps (CountyModel _)) as [e | [cs cdv]]; [discriminate |].
  intros H. inversion H; subst ctx; clear H. simpl. split; [reflexivity |].
  unfold selectable. do 2 f_equal.
  apply drop_totals_inr in Hd. destruct Hd as (_ & _ & ->).
  unfold records at 1. rewrite read_json_drop_rows.
  rewrite (map_snd_filter (fun r => negb (is_total r))).
  fold (records (read_json cols recs)). rewrite records_read_json. reflexivity.
Qed.

Lemma index_context_read_json_witness :
  exists ctx,
    index Sample.state_mapping Sample.county_data Sample.components None
      Sample.state_data Sample.mortality = inr ctx /\
    current_state ctx = "New York" /\
    states ctx = [Some "New York"; Some "District of Columbia";
                  Some "New York"; Some "New York"].
Proof.
  eexists. split; [vm_compute; reflexivity |].
  destruct (index_context_read_json Sample.state_mapping Sample.county_data
              Sample.components None Sample.state_columns
              (records Sample.state_data) Sample.mortality _
              ltac:(vm_compute; reflexivity)) as [Hc Hs].
  split; [exact Hc | exact Hs].
Defined.

(** X20.  When [components] rejects the pair [(None, None)], a request
    for a region the county join fails on raises that error, although the
    rollup filter and [age_by_state] succeeded and the age chart was
    accepted. *)
Theorem county_failure_fails_request sm cd comps arg (sd sd' : DataFrame StateRecord.t)
    (cd' : DataFrame CountyRecord.t) plot df_age scripts e :
  let cur := match arg with None => "New York" | Some s => s end in
  comps (CountyModel NoneNone) = inl e ->
  failure_cause sm cd cd' cur ->
  drop_totals sd = inr sd' ->
  age_by_state sd' cur = inr (plot, df_age) ->
  comps (StateModel plot) = inr scripts ->
  index sm cd comps arg sd cd' = inl e.
Proof.
  intros cur Hrej Hcause Hd Ha Hs. rewrite index_steps. fold cur.
  rewrite Hd, Ha, Hs. destruct scripts as [ss sdv].
  rewrite (failure_cause_none_pair sm cd cd' cur Hcause), Hrej. reflexivity.
Qed.

Lemma county_failure_fails_request_witness :
  failure_cause Sample.state_mapping Sample.county_data Sample.mortality "Atlantis" /\
  index Sample.state_mapping Sample.county_data Sample.strict_components
    (Some "Atlantis") Sample.state_data Sample.mortality = inl ValueError.
Proof.
  assert (failure_cause Sample.state_mapping Sample.county_data Sample.mortality
            "Atlantis") as Hcause.
  { apply region_not_found. reflexivity. }
  split; [exact Hcause |].
  apply (county_failure_fails_request Sample.state_mapping Sample.county_data
           Sample.strict_components (Some "Atlantis") Sample.state_data
           (drop [0%nat] Sample.state_data) Sample.mortality
           (mkStatePlot [] "Deaths x Age - Atlantis" []) []
           ("<script></script>", "<div></div>") ValueError
           eq_refl Hcause).
  - vm_compute. reflexivity.
  - vm_compute. reflexivity.
  - reflexivity.
Defined.

(** ** A request for a region the mapping does not know *)

(** C1.  A display name no code of the mapping carries makes the lookup
    come back empty; unpacking it raises [TypeError] inside the [try], and
    [deaths_by_county] returns the pair [(None, None)], whatever the county
    dataset: no exception and no partial plot.  The request for that name
    goes on with the pair in place of the county plot, and whether it ends
    in a page or in an error of [components], the region list of a request
    on a state dataset is computed from that dataset alone, so the list a
    later request gets is what it would have been without the failed one. *)
Theorem unknown_region_returns_none_pair sm cd comps
    (data : DataFrame CountyRecord.t) (state : string) :
  (forall code name, In (code, name) sm -> name <> state) ->
  deaths_by_county_try sm cd data state = inl TypeError /\
  deaths_by_county sm cd data state = NoneNone /\
  (forall sd,
     index sm cd comps (Some state) sd data =
     match drop_totals sd with
     | inl e => inl e
     | inr sd' =>
         match age_by_state sd' state with
         | inl e => inl e
         | inr (plot, _) =>
             match comps (StateModel plot) with
             | inl e => inl e
             | inr (ss, sdv) =>
                 match comps (CountyModel NoneNone) with
                 | inl e => inl e
                 | inr (cs, cdv) =>
                     inr (mkTemplateContext ss sdv cs cdv state
                            (selectable (map StateRecord.state (records sd'))))
                 end
             end
         end
     end) /\
  (forall sd arg' data' ctx',
     index sm cd comps arg' sd data' = inr ctx' ->
     exists sd',
       drop_totals sd = inr sd' /\
       states ctx' = selectable (map StateRecord.state (records sd'))).
Proof.
  intros Hno. apply resolve_none in Hno.
  assert (deaths_by_county_try sm cd data state = inl TypeError) as Htry.
  { unfold deaths_by_county_try. unfold resolve in Hno. rewrite Hno. reflexivity. }
  assert (deaths_by_county sm cd data state = NoneNone) as Hnone.
  { unfold deaths_by_county. rewrite Htry. reflexivity. }
  split; [exact Htry |]. split; [exact Hnone |]. split.
  - intros sd. rewrite index_steps, Hnone. reflexivity.
  - intros sd arg' data' ctx' H. rewrite index_steps in H.
    destruct (drop_totals sd) as [e | sd']; [discriminate |].
    exists sd'. split; [reflexivity |].
    destruct (age_by_state sd' _) as [e | [plot df_age]]; [discriminate |].
    destruct (comps (StateModel plot)) as [e | [ss sdv]]; [discriminate |].
    destruct (comps (CountyModel _)) as [e | [cs cdv]]; [discriminate |].
    inversion H. reflexivity.
Qed.

Lemma unknown_region_returns_none_pair_witness :
  (forall code name, In (code, name) Sample.state_mapping -> name <> "Atlantis") /\
  deaths_by_county Sample.state_mapping Sample.county_data Sample.mortality "Atlantis"
  = NoneNone /\
  index Sample.state_mapping Sample.county_data Sample.strict_components
    (Some "Atlantis") Sample.state_data Sample.mortality = inl ValueError /\
  exists ctx',
    index Sample.state_mapping Sample.county_data Sample.strict_components
      None Sample.state_data Sample.mortality = inr ctx' /\
    states ctx' = [Some "New York"; Some "District of Columbia";
                   Some "New York"; Some "New York"].
Proof.
  assert (forall code name,
             In (code, name) Sample.state_mapping -> name <> "Atlantis") as H.
  { intros code name Hin. simpl in Hin.
    repeat (destruct Hin as [E | Hin]; [inversion E; discriminate |]). contradiction. }
  destruct (unknown_region_returns_none_pair Sample.state_mapping Sample.county_data
              Sample.strict_components Sample.mortality "Atlantis" H)
    as (_ & Hnone & Hreq & Hlist).
  split; [exact H |]. split; [exact Hnone |]. split.
  - rewrite (Hreq Sample.state_data). vm_compute. reflexivity.
  - eexists. split; [vm_compute; reflexivity |].
    destruct (Hlist Sample.state_data None Sample.mortality _
                ltac:(vm_compute; reflexivity)) as (sd' & Hd & Hs).
    rewrite Hs. vm_compute in Hd. inversion Hd. reflexivity.
Defined.
